(** * citifier.py: every word of a book cited to another book that uses it

    A shallow embedding of [src/citifier/citifier.py] and the properties of
    its annotation loop, its citation list, its marker encoding, its corpus
    cache and its reference list.

    Conventions.
    - A Python [str] is a [string], one [ascii] per character.  A text read
      by [Book.text] is decoded from cp1252, a single-byte encoding: each
      character is represented by its cp1252 code, so that decoding keeps
      the bytes and only checks that each of them is assigned.  The
      characters of the other strings (file names, fields of the metadata)
      are taken below 256 and represented by their code point.
    - A Python [set] of [str] is a [gset string], a [dict] a [gmap].
    - An exception is the [Raise] branch of the result type [py].
    - Libraries the script calls but does not define (TextBlob's tokenizer,
      [random], the file system walk, regular expressions whose pattern has
      metacharacters) are variables of the sections below. *)

From Stdlib Require Import Ascii String DecimalString ZArith.
From stdpp Require Import gmap strings list.

Local Open Scope string_scope.
Local Open Scope nat_scope.

(** ** Exceptions and results *)

Inductive exn : Type :=
  | UnicodeDecodeError
  | FileNotFoundError (path : string)
  | KeyError (key : string)
  | IndexError
  | ValueError
  | AttributeError
  | TypeError
  | ReError (pattern : string).

Inductive py (A : Type) : Type :=
  | Ok (a : A)
  | Raise (e : exn).
Arguments Ok {A} a.
Arguments Raise {A} e.

Definition py_bind {A B} (m : py A) (k : A → py B) : py B :=
  match m with
  | Ok a => k a
  | Raise e => Raise e
  end.

Notation "'let*' x := m 'in' k" := (py_bind m (fun x => k))
  (at level 10, x pattern, m at level 100, k at level 200).

(** [for x in xs: st = body(st, x)], stopping at the first exception. *)
Fixpoint py_for {A S} (body : S → A → py S) (xs : list A) (st : S) : py S :=
  match xs with
  | [] => Ok st
  | x :: xs' => let* st' := body st x in py_for body xs' st'
  end.

(** ** Characters *)

Definition code (c : ascii) : nat := nat_of_ascii c.

Definition between (lo hi n : nat) : bool := (lo <=? n) && (n <=? hi).

(** [str.lower] on one character of the cp1252 repertoire: A-Z, the
    accented capitals of Latin-1 (all of 0xC0-0xDE but the multiplication
    sign) and the four capitals of the 0x80-0x9F block. *)
Definition lower_char (c : ascii) : ascii :=
  let n := code c in
  if between 65 90 n then ascii_of_nat (n + 32)
  else if between 192 222 n && negb (n =? 215) then ascii_of_nat (n + 32)
  else if (n =? 138) || (n =? 140) || (n =? 142) then ascii_of_nat (n + 16)
  else if n =? 159 then ascii_of_nat 255
  else c.

(** [\d] on the cp1252 repertoire: the decimal digits. *)
Definition is_digit (c : ascii) : bool := between 48 57 (code c).

(** [\w] on the cp1252 repertoire: what [str.isalnum] accepts, and [_]. *)
Definition is_word_char (c : ascii) : bool :=
  let n := code c in
  between 48 57 n || between 65 90 n || (n =? 95) || between 97 122 n
  || (n =? 131) || (n =? 136) || (n =? 138) || (n =? 140) || (n =? 142)
  || (n =? 154) || (n =? 156) || (n =? 158) || (n =? 159)
  || (n =? 170) || (n =? 178) || (n =? 179) || (n =? 181) || (n =? 185)
  || (n =? 186) || between 188 190 n
  || between 192 214 n || between 216 246 n || between 248 255 n.

(** The five bytes cp1252 leaves unassigned: 0x81, 0x8D, 0x8F, 0x90, 0x9D. *)
Definition cp1252_assigned (c : ascii) : bool :=
  let n := code c in
  negb ((n =? 129) || (n =? 141) || (n =? 143) || (n =? 144) || (n =? 157)).

(** [str.isspace] on the characters below 256, by code point: the ASCII
    blanks and separators, the next line U+0085 and the no-break space
    U+00A0.  It is used by [strip], on the fields of the metadata. *)
Definition is_space_char (c : ascii) : bool :=
  let n := code c in
  between 9 13 n || between 28 32 n || (n =? 133) || (n =? 160).

(** Characters with a meaning of their own in a regular expression. *)
Definition is_re_special (c : ascii) : bool :=
  let n := code c in
  (n =? 46) || (n =? 94) || (n =? 36) || (n =? 42) || (n =? 43) || (n =? 63)
  || (n =? 123) || (n =? 125) || (n =? 91) || (n =? 93) || (n =? 92)
  || (n =? 124) || (n =? 40) || (n =? 41).

(** ** Strings *)

Fixpoint str_map (f : ascii → ascii) (s : string) : string :=
  match s with
  | EmptyString => EmptyString
  | String c s' => String (f c) (str_map f s')
  end.

Fixpoint str_forallb (p : ascii → bool) (s : string) : bool :=
  match s with
  | EmptyString => true
  | String c s' => p c && str_forallb p s'
  end.

Fixpoint str_existsb (p : ascii → bool) (s : string) : bool :=
  match s with
  | EmptyString => false
  | String c s' => p c || str_existsb p s'
  end.

Fixpoint str_drop (n : nat) (s : string) : string :=
  match n, s with
  | S k, String _ s' => str_drop k s'
  | _, _ => s
  end.

Fixpoint str_take (n : nat) (s : string) : string :=
  match n, s with
  | S k, String c s' => String c (str_take k s')
  | _, _ => EmptyString
  end.

Fixpoint str_drop_while (p : ascii → bool) (s : string) : string :=
  match s with
  | EmptyString => EmptyString
  | String c s' => if p c then str_drop_while p s' else s
  end.

(** [s.lower()] *)
Definition lower (s : string) : string := str_map lower_char s.

(** ["*" in s] *)
Definition has_star (s : string) : bool := str_existsb (fun c => code c =? 42) s.

(** [s.strip()] *)
Definition strip (s : string) : string :=
  String.rev (str_drop_while is_space_char
                (String.rev (str_drop_while is_space_char s))).

(** [str(n)] for a non-negative integer. *)
Definition str_of_nat (n : nat) : string := NilZero.string_of_uint (Nat.to_uint n).

(** [os.path.split(path)[1]]: what follows the last slash. *)
Fixpoint basename_go (cur : string) (s : string) : string :=
  match s with
  | EmptyString => String.rev cur
  | String c s' =>
      if code c =? 47 then basename_go EmptyString s'
      else basename_go (String c cur) s'
  end.

Definition basename (path : string) : string := basename_go EmptyString path.

(** The line feed and the double quote of the HTML template. *)
Definition nl : string := String (ascii_of_nat 10) EmptyString.
Definition dq : string := String (ascii_of_nat 34) EmptyString.

(** [codecs.decode(bytes, "cp1252")] *)
Definition decode_cp1252 (bytes : string) : py string :=
  if str_forallb cp1252_assigned bytes then Ok bytes else Raise UnicodeDecodeError.

(** ** Regular expressions

    [re.sub(pattern, repl, text)] for a pattern that matches no empty
    string.  A compiled pattern is a [matcher]: [m prev s] is the length of
    the match that starts at the head of [s], where [prev] is the character
    of the text just before it (what [\b] looks at).  [re.sub] takes the
    leftmost match, replaces it, and goes on after its end; the matcher
    always sees the characters of the text as it was given. *)

Definition matcher : Type := option ascii → string → option nat.

Fixpoint re_sub_go (m : matcher) (repl : string → string)
    (skip : nat) (prev : option ascii) (s : string) : string :=
  match s with
  | EmptyString => EmptyString
  | String c s' =>
      match skip with
      | S k => re_sub_go m repl k (Some c) s'
      | O =>
          match m prev s with
          | Some (S k) =>
              repl (str_take (S k) s) +:+ re_sub_go m repl k (Some c) s'
          | _ => String c (re_sub_go m repl O (Some c) s')
          end
      end
  end.

Definition re_sub (m : matcher) (repl : string → string) (text : string) : string :=
  re_sub_go m repl 0 None text.

(** [re.search(pattern, text) is not None] *)
Fixpoint re_search_go (m : matcher) (prev : option ascii) (s : string) : bool :=
  match s with
  | EmptyString => false
  | String c s' => bool_decide (is_Some (m prev s)) || re_search_go m (Some c) s'
  end.

Definition re_search (m : matcher) (text : string) : bool := re_search_go m None text.

(** *** The pattern [REF(\d+)REF] of line 230 *)

Definition strip_REF (s : string) : option string :=
  match s with
  | String "R" (String "E" (String "F" s')) => Some s'
  | _ => None
  end.

(** The longest run of digits at the head, and what follows it. *)
Fixpoint span_digits (s : string) : string * string :=
  match s with
  | EmptyString => (EmptyString, EmptyString)
  | String c s' =>
      if is_digit c then
        let '(ds, rest) := span_digits s' in (String c ds, rest)
      else (EmptyString, s)
  end.

Definition ref_match : matcher := fun _ s =>
  match strip_REF s with
  | Some s1 =>
      let '(ds, s2) := span_digits s1 in
      match ds, strip_REF s2 with
      | String _ _, Some _ => Some (3 + String.length ds + 3)
      | _, _ => None
      end
  | None => None
  end.

(** The template [<r>\1</r>]: group 1 is the match without its two [REF]. *)
Definition ref_repl (matched : string) : string :=
  "<r>" +:+ str_take (String.length matched - 6) (str_drop 3 matched) +:+ "</r>".

(** [re.sub(rf"REF(\d+)REF", rf"<r>\1</r>", text)] *)
Definition sub_ref (text : string) : string := re_sub ref_match ref_repl text.

(** *** The pattern [\b(word)\b] of line 217, for a literal word *)

Definition is_word_opt (c : option ascii) : bool :=
  match c with
  | Some c => is_word_char c
  | None => false
  end.

(** [\b] between two neighbours; outside the text counts as a non-word. *)
Definition at_boundary (before after : option ascii) : bool :=
  xorb (is_word_opt before) (is_word_opt after).

Definition str_head (s : string) : option ascii :=
  match s with
  | EmptyString => None
  | String c _ => Some c
  end.

(** [re.IGNORECASE] on literals: the head of [s] spells [w] up to case.
    Returns the last character matched and the rest of [s]. *)
Fixpoint ci_prefix (last : option ascii) (w s : string) : option (option ascii * string) :=
  match w with
  | EmptyString => Some (last, s)
  | String a w' =>
      match s with
      | String c s' =>
          if bool_decide (lower_char c = lower_char a)
          then ci_prefix (Some c) w' s' else None
      | EmptyString => None
      end
  end.

Definition word_match (word : string) : matcher := fun prev s =>
  if at_boundary prev (str_head s) then
    match ci_prefix prev word s with
    | Some (last, rest) =>
        if at_boundary last (str_head rest) then Some (String.length word) else None
    | None => None
    end
  else None.

(** The template [\1REF{n}REF]: the text matched, then the marker. *)
Definition word_repl (n : nat) (matched : string) : string :=
  matched +:+ "REF" +:+ str_of_nat n +:+ "REF".

(** A word is a literal of the pattern language when it is not empty and
    has no metacharacter. *)
Definition plain (word : string) : bool :=
  negb (bool_decide (word = EmptyString))
  && str_forallb (fun c => negb (is_re_special c)) word.

(** ** Books and metadata *)

(** [class Book]: the path, the file name and the bag of lowercase words.
    The text is not kept; [Book.text] reads the file again. *)
Record Book : Type := {
  fullpath : string;
  filename : string;
  set : gset string
}.

(** The disk: the bytes of each file, by path. *)
Abbreviation disk := (gmap string string).

(** What [load_metadata] returns: a row of fields for each text file.  A
    field of a row of [csv.DictReader] is a [str], or [None] when the row
    is short. *)
Abbreviation metadata_t := (gmap string (gmap string (option string))).

(** [metadata[id][field]] *)
Definition getitem (metadata : metadata_t) (id field : string) : py (option string) :=
  match metadata !! id with
  | None => Raise (KeyError id)
  | Some row =>
      match row !! field with
      | None => Raise (KeyError field)
      | Some v => Ok v
      end
  end.

(** [v.strip()]: [None] has no such method. *)
Definition str_strip (v : option string) : py string :=
  match v with
  | Some s => Ok (strip s)
  | None => Raise AttributeError
  end.

(** [if v:] for a [str] or [None]. *)
Definition truthy (v : option string) : bool :=
  match v with
  | Some (String _ _) => true
  | _ => false
  end.

(** [f"{v}"] *)
Definition format_val (v : option string) : string :=
  match v with
  | Some s => s
  | None => "None"
  end.

(** [sep.join(l)] *)
Fixpoint join (sep : string) (l : list string) : string :=
  match l with
  | [] => EmptyString
  | [x] => x
  | x :: l' => x +:+ sep +:+ join sep l'
  end.

(** [l.index(x)] *)
Fixpoint list_index (x : string) (l : list string) : py nat :=
  match l with
  | [] => Raise ValueError
  | y :: l' =>
      if bool_decide (y = x) then Ok 0
      else let* i := list_index x l' in Ok (S i)
  end.

(** [l[-1]] *)
Definition getitem_last (l : list string) : py string :=
  match last l with
  | Some x => Ok x
  | None => Raise IndexError
  end.

(** [load_cache(BOOKS_CACHE)]: the cache file holds a pickled list of
    books; [None] stands for no file, and is what [load_cache] returns
    then. *)
Definition load_cache (cache_file : option (list Book)) : option (list Book) :=
  match cache_file with
  | Some data => Some data
  | None => None
  end.

(** [not books], for [None] or a list. *)
Definition not_ (books : option (list Book)) : bool :=
  match books with
  | None => true
  | Some [] => true
  | Some (_ :: _) => false
  end.

(** [Book.text]: read and decode the file.  The disk holds the files that
    can be read; a path it does not hold is taken not to exist.  What
    [open] raises on a directory or on a file it may not read is outside
    this model. *)
Definition Book_text (fs : disk) (path : string) : py string :=
  match fs !! path with
  | None => Raise (FileNotFoundError path)
  | Some bytes => decode_cp1252 bytes
  end.

(** ** The reference list *)

(** The first [try] of [make_cites]. *)
Definition cite_author (metadata : metadata_t) (id : string) : py string :=
  let* ln := getitem metadata id "Author-LN" in
  let* author := str_strip ln in
  let* fn := getitem metadata id "Author-FN" in
  if truthy fn then
    let* fn' := str_strip fn in Ok (author +:+ ", " +:+ fn')
  else Ok author.

(** The second [try] of [make_cites]. *)
Definition cite_title (metadata : metadata_t) (id : string) : py string :=
  let* title := getitem metadata id "Title" in
  let* subtitle := getitem metadata id "Subtitle" in
  if truthy subtitle then
    let* subtitle' := str_strip subtitle in
    match title with
    | Some t => Ok (t +:+ ": " +:+ subtitle')
    | None => Raise TypeError
    end
  else Ok (format_val title).

(** [try: body except KeyError: handler]; the handler also [pprint]s [id].
    The second component is what was printed. *)
Definition except_KeyError (body : py string) (handler id : string)
    : py (string * list string) :=
  match body with
  | Ok v => Ok (v, [])
  | Raise (KeyError _) => Ok (handler, [id])
  | Raise e => Raise e
  end.

(** One turn of the loop of [make_cites]: the entry, and what was printed. *)
Definition make_cite (metadata : metadata_t) (i : nat) (id : string)
    : py (string * list string) :=
  let* (author, p1) :=
    except_KeyError (cite_author metadata id) "[Unknown author]" id in
  let* (title, p2) :=
    except_KeyError (cite_title metadata id) ("[" +:+ id +:+ "]") id in
  Ok ("<r>" +:+ str_of_nat (i + 1) +:+ "</r> " +:+ author +:+ ", <i>"
        +:+ title +:+ "</i>", (p1 ++ p2)%list).

(** [for i, id in enumerate(cite_filenames)], from index [i] on. *)
Fixpoint make_cites_from (metadata : metadata_t) (i : nat) (ids : list string)
    : py (list string * list string) :=
  match ids with
  | [] => Ok ([], [])
  | id :: ids' =>
      let* (entry, p) := make_cite metadata i id in
      let* (out, ps) := make_cites_from metadata (S i) ids' in
      Ok (entry :: out, (p ++ ps)%list)
  end.

Definition make_cites (cite_filenames : list string) (metadata : metadata_t)
    : py (list string * list string) :=
  make_cites_from metadata 0 cite_filenames.

(** ** The co-authors and the page *)

Definition coauthor (metadata : metadata_t) (id : string) : py string :=
  match
    (let* fn := getitem metadata id "Author-FN" in
     let* author :=
       (if truthy fn then let* fn' := str_strip fn in Ok (fn' +:+ " ")
        else Ok EmptyString) in
     let* ln := getitem metadata id "Author-LN" in
     let* ln' := str_strip ln in
     Ok (author +:+ ln'))
  with
  | Raise (KeyError _) => Ok "[Unknown author]"
  | r => r
  end.

Fixpoint get_coauthors_go (metadata : metadata_t) (ids : list string)
    (out : gset string) : py (gset string) :=
  match ids with
  | [] => Ok out
  | id :: ids' =>
      let* author := coauthor metadata id in
      get_coauthors_go metadata ids' (out ∪ {[author]})
  end.

(** [list(out)] has the order of the set, which Python does not fix;
    [elements] stands for it. *)
Definition get_coauthors (cite_filenames : list string) (metadata : metadata_t)
    : py (list string) :=
  let* out := get_coauthors_go metadata cite_filenames ∅ in
  Ok (elements out).

(** The first f-string written to [output.html]. *)
Definition header (title first_author : string) (coauthors : list string) : py string :=
  let others := str_of_nat (length coauthors) in
  let all_but_last := join ", " (removelast coauthors) in
  let* the_last := getitem_last coauthors in
  Ok (nl +:+ "<title>" +:+ title +:+ " by " +:+ first_author +:+ " and "
        +:+ others +:+ " Others</title>" +:+ nl
      +:+ "<link rel=" +:+ dq +:+ "stylesheet" +:+ dq +:+ " href=" +:+ dq
        +:+ "style.css" +:+ dq +:+ ">" +:+ nl
      +:+ "<center id=" +:+ dq +:+ "top" +:+ dq +:+ ">" +:+ nl
      +:+ "<h1><i>" +:+ title +:+ "</i></h1>" +:+ nl
      +:+ "<h3>by</h3>" +:+ nl
      +:+ "<h2>" +:+ first_author +:+ "</h2>" +:+ nl
      +:+ "<h3>and</h3>" +:+ nl
      +:+ "<p>" +:+ all_but_last +:+ " and " +:+ the_last +:+ nl
      +:+ "<p>Jump to <a href=" +:+ dq +:+ "#references" +:+ dq
        +:+ ">references</a>" +:+ nl
      +:+ "</center>" +:+ nl
      +:+ "<pre>" +:+ nl).

(** The last f-string written to [output.html]. *)
Definition footer (cite_list : string) : string :=
  nl +:+ nl
  +:+ "<h1 id=" +:+ dq +:+ "references" +:+ dq +:+ ">References</h1>" +:+ nl
  +:+ cite_list +:+ nl
  +:+ "</pre>" +:+ nl
  +:+ "<p><a href=" +:+ dq +:+ "#top" +:+ dq +:+ ">Back to top</a>" +:+ nl.

(** Lines 229-267 of [main]: what [output.html] holds in the end. *)
Definition render (metadata : metadata_t) (book1_filename book1_text : string)
    (cite_filenames : list string) : py string :=
  let book1_text := sub_ref book1_text in
  let* title := getitem metadata book1_filename "Title" in
  let* fn := getitem metadata book1_filename "Author-FN" in
  let* fn' := str_strip fn in
  let* ln := getitem metadata book1_filename "Author-LN" in
  let* ln' := str_strip ln in
  let first_author := fn' +:+ " " +:+ ln' in
  let* coauthors := get_coauthors cite_filenames metadata in
  let* (cites, _) := make_cites cite_filenames metadata in
  let cite_list := join nl cites in
  let* head := header (format_val title) first_author coauthors in
  Ok (head +:+ book1_text +:+ footer cite_list).

(** ** The libraries behind the script

    What [citifier.py] imports and this development does not define. *)
Class Library : Type := {
  (** [TextBlob(text).words] *)
  blob_words : string → list string;
  (** the state of the generator of [random] *)
  Rng : Type;
  (** [random.shuffle(books)]: the new state and the new order *)
  shuffle : Rng → list Book → Rng * list Book;
  (** [random.sample(files, k)] *)
  sample : Rng → list string → nat → Rng * list string;
  (** [os.walk] and [fnmatch.filter] in [recursive_find] *)
  recursive_find : string → list string;
  (** [re.sub(pattern, repl, text, flags=re.IGNORECASE)] for a pattern with
      metacharacters; [re.error] when the pattern does not compile *)
  re_sub_py : string → string → string → py string;
  (** [list(s)]: the elements of a set, in the order of the set *)
  list_of_set : gset string → list string
}.

(** [TextBlob("")] has no words. *)
Definition words_of_empty (L : Library) : Prop :=
  blob_words EmptyString = [].

(** [random.shuffle] reorders and nothing else. *)
Definition shuffle_permutes (L : Library) : Prop :=
  ∀ (r : Rng) (l : list Book), (shuffle r l).2 ≡ₚ l.

(** [list(s)] has each element of [s] once. *)
Definition list_of_set_lists (L : Library) : Prop :=
  ∀ s : gset string, NoDup (list_of_set s) ∧ ∀ w, w ∈ list_of_set s ↔ w ∈ s.

Section Program.
Context {L : Library}.

(** [Book.__init__] *)
Definition new_Book (fs : disk) (file : string) : py Book :=
  let* text :=
    match Book_text fs file with
    | Raise UnicodeDecodeError => Ok EmptyString
    | r => r
    end in
  Ok {| fullpath := file;
        filename := basename file;
        set := list_to_set (lower <$> blob_words text) |}.

(** [[Book(file) for file in files]] *)
Fixpoint new_Books (fs : disk) (files : list string) : py (list Book) :=
  match files with
  | [] => Ok []
  | file :: files' =>
      let* book := new_Book fs file in
      let* books := new_Books fs files' in
      Ok (book :: books)
  end.

(** Lines 176-185 of [main]: the corpus, the cache file afterwards, and
    the state of the generator. *)
Definition read_books (fs : disk) (cache_file : option (list Book)) (rng : Rng)
    (inspec : string) (total_books : Z) (use_cache : bool)
    : py (list Book * option (list Book) * Rng) :=
  let books := if use_cache then load_cache cache_file else None in
  if not_ books then
    let files := recursive_find inspec in
    let '(rng', files) :=
      if (0 <? total_books)%Z
      then sample rng files (Z.to_nat (Z.min total_books (Z.of_nat (length files))))
      else (rng, files) in
    let* books := new_Books fs files in
    Ok (books, if use_cache then Some books else cache_file, rng')
  else
    Ok (default [] books, cache_file, rng).

(** [re.sub(rf"\b({word})\b", rf"\1REF{n}REF", book1_text,
    flags=re.IGNORECASE)].  The word goes into the pattern as it is: a
    plain word is a literal, any other is left to the library. *)
Definition sub_word (word : string) (n : nat) (text : string) : py string :=
  if plain word then Ok (re_sub (word_match word) (word_repl n) text)
  else re_sub_py ("\b(" +:+ word +:+ ")\b") ("\1REF" +:+ str_of_nat n +:+ "REF") text.

(** The variables of the loop of lines 192-222.  [history] is a ghost
    field, read by no branch: one entry (word, book2, number) for each time
    line 216 was reached. *)
Record state : Type := {
  book1_text : string;
  done : gset string;
  cite_filenames : list string;
  books : list Book;
  rng : Rng;
  history : list (string * Book * nat)
}.

(** The inner loop of lines 207-222 stops at the first book with the word. *)
Definition first_with (word : string) (books : list Book) : option Book :=
  List.find (fun book2 => bool_decide (lower word ∈ set book2)) books.

(** Line 212-213 *)
Definition add_cite (name : string) (cite_filenames : list string) : list string :=
  if bool_decide (name ∈ cite_filenames) then cite_filenames
  else (cite_filenames ++ [name])%list.

(** One turn of the loop of line 192. *)
Definition citify_word (st : state) (word : string) : py state :=
  if bool_decide (lower word ∈ done st) then Ok st
  else if has_star word then Ok st
  else
    let done' := done st ∪ {[lower word]} in
    let '(rng', books') := shuffle (rng st) (books st) in
    match first_with word books' with
    | None =>
        Ok {| book1_text := book1_text st; done := done';
              cite_filenames := cite_filenames st; books := books';
              rng := rng'; history := history st |}
    | Some book2 =>
        let cites := add_cite (filename book2) (cite_filenames st) in
        let* i := list_index (filename book2) cites in
        let* text := sub_word word (i + 1) (book1_text st) in
        Ok {| book1_text := text; done := done';
              cite_filenames := cites; books := books';
              rng := rng';
              history := (history st ++ [(word, book2, i + 1)])%list |}
    end.

(** Lines 188-191 *)
Definition init_state (text : string) (books : list Book) (rng : Rng) : state :=
  {| book1_text := text; done := ∅; cite_filenames := [];
     books := books; rng := rng; history := [] |}.

(** The loop of lines 192-222 over the words in the order [ws]. *)
Definition citify (ws : list string) (st : state) : py state :=
  py_for citify_word ws st.

(** [main]: the page written and the cache file afterwards.  The progress
    messages are left out; [metadata] is what [load_metadata] returned. *)
Definition main (fs : disk) (cache_file : option (list Book))
    (metadata : metadata_t) (rng : Rng)
    (infile1 inspec : string) (total_books : Z) (use_cache : bool)
    : py (string * option (list Book)) :=
  let* book1 := new_Book fs infile1 in
  let* (books_cache, rng') :=
    read_books fs cache_file rng inspec total_books use_cache in
  let '(books, cache_file') := books_cache in
  let* text := Book_text fs (fullpath book1) in
  let* st := citify (list_of_set (set book1)) (init_state text books rng') in
  let* page :=
    render metadata (filename book1) (book1_text st) (cite_filenames st) in
  Ok (page, cache_file').

End Program.

(** ** Notions the properties are stated with *)

(** [re.findall] for a pattern whose only group is the whole match: the
    texts matched, from left to right. *)
Fixpoint re_findall_go (m : matcher) (skip : nat) (prev : option ascii)
    (s : string) : list string :=
  match s with
  | EmptyString => []
  | String c s' =>
      match skip with
      | S k => re_findall_go m k (Some c) s'
      | O =>
          match m prev s with
          | Some (S k) => str_take (S k) s :: re_findall_go m k (Some c) s'
          | _ => re_findall_go m O (Some c) s'
          end
      end
  end.

Definition re_findall (m : matcher) (text : string) : list string :=
  re_findall_go m 0 None text.

(** The whole-word occurrences of [word] in [text], whatever their case. *)
Definition occurrences (word text : string) : list string :=
  re_findall (word_match word) text.

(** The whole-word occurrences of [word] directly followed by the marker
    of number [n], without the marker. *)
Definition occurrences_marked (word : string) (n : nat) (text : string) : list string :=
  str_take (String.length word)
    <$> re_findall (word_match (word +:+ "REF" +:+ str_of_nat n +:+ "REF")) text.

(** A raw marker [REF<digits>REF] somewhere in the text. *)
Definition has_raw_marker (text : string) : bool := re_search ref_match text.

(** The distinct elements of a list, each at its first place. *)
Fixpoint first_occurrences (l : list string) : list string :=
  match l with
  | [] => []
  | x :: l' => x :: filter (fun y => y ≠ x) (first_occurrences l')
  end.

(** The file names of the books of a history, oldest first. *)
Definition discovered (h : list (string * Book * nat)) : list string :=
  (fun e => filename e.1.2) <$> h.

(** The entries of a history made for one word. *)
Definition entries_of (word : string) (h : list (string * Book * nat))
    : list (string * Book * nat) :=
  filter (fun e => e.1.1 = word) h.

(** The corpus documents that can be cited for a word. *)
Definition sources (books : list Book) (word : string) : list Book :=
  filter (fun b => lower word ∈ set b) books.

(** [ws] is [list(s)] in some order. *)
Definition lists_set (ws : list string) (s : gset string) : Prop :=
  NoDup ws ∧ ∀ w, w ∈ ws ↔ w ∈ s.

Section Replay.
Context {L : Library}.

(** The substitutions of a history, done again in their order. *)
Fixpoint replay (h : list (string * Book * nat)) (text : string) : py string :=
  match h with
  | [] => Ok text
  | (word, _, n) :: h' => let* text' := sub_word word n text in replay h' text'
  end.

(** What the loop keeps true of its citation list and its history, [text0]
    being the text it started from. *)
Record cites_inv (text0 : string) (st : state) : Prop := {
  inv_nodup : NoDup (cite_filenames st);
  inv_order : cite_filenames st = first_occurrences (discovered (history st));
  inv_history : ∀ w b n, (w, b, n) ∈ history st →
    lower w ∈ set b ∧ has_star w = false ∧ lower w ∈ done st
    ∧ 1 ≤ n ∧ cite_filenames st !! (n - 1) = Some (filename b);
  inv_replay : replay (history st) text0 = Ok (book1_text st)
}.

(** What it keeps true of the corpus [books0] it started from. *)
Record corpus_inv (books0 : list Book) (st : state) : Prop := {
  inv_books : books st ≡ₚ books0;
  inv_cited : ∀ w b n, (w, b, n) ∈ history st → b ∈ books0
}.

(** None of the words to come is in [done]. *)
Definition fresh (ws : list string) (st : state) : Prop :=
  ∀ w, w ∈ ws → lower w ∉ done st.

(** The first testable property of the specification, as it is worded, for
    the word [W] of a run that started from [text0] and [books0] and ended
    in [st]: either no book has the word and its occurrences are as they
    were, or its occurrences carry one number, the number of a book that
    has the word. *)
Definition cited_as_worded (books0 : list Book) (text0 : string) (st : state)
    (W : string) : Prop :=
  ((∀ b, b ∈ books0 → W ∉ set b)
   ∧ occurrences W (book1_text st) = occurrences W text0)
  ∨ (∃ (n : nat) (b : Book),
       occurrences_marked W n (book1_text st) = occurrences W text0
       ∧ b ∈ books0 ∧ lower W ∈ set b
       ∧ 1 ≤ n ∧ cite_filenames st !! (n - 1) = Some (filename b)).

End Replay.

(** ** A small library to run the definitions with

    Words are split at blanks, [list(s)] is [elements s], a shuffle turns
    the list by one more place each time, and a pattern with
    metacharacters is refused. *)

Definition demo_shuffle (r : nat) (l : list Book) : nat * list Book :=
  (S r, rotate r l).

Definition demo_sample (r : nat) (files : list string) (k : nat) : nat * list string :=
  (S r, take k (rotate r files)).

Definition demo_find (inspec : string) : list string :=
  if bool_decide (inspec = "PG/*.txt") then ["PG/etext00/well.txt"; "PG/etext01/whale.txt"]
  else if bool_decide (inspec = "one/*.txt") then ["one/well.txt"]
  else [].

Definition demo_library : Library := {|
  blob_words := String.words;
  Rng := nat;
  shuffle := demo_shuffle;
  sample := demo_sample;
  recursive_find := demo_find;
  re_sub_py := fun pattern _ _ => Raise (ReError pattern);
  list_of_set := elements
|}.

(** A byte cp1252 does not assign. *)
Definition byte_0x81 : string := String (ascii_of_nat 129) EmptyString.

Definition demo_fs : disk :=
  {[ "moby.txt" := "Well the whale is well-known";
     "short.txt" := "well well-known";
     "PG/etext00/well.txt" := "all is well";
     "PG/etext01/whale.txt" := "The Whale and the well";
     "one/well.txt" := "well";
     "PG/etext03/bad.txt" := "caf" +:+ byte_0x81 ]}.

Definition demo_row (fn ln title subtitle : string) : gmap string (option string) :=
  {[ "Author-FN" := Some fn; "Author-LN" := Some ln;
     "Title" := Some title; "Subtitle" := Some subtitle ]}.

Definition demo_metadata : metadata_t :=
  {[ "moby.txt" := demo_row "Herman " "Melville" "Moby Dick" "The Whale";
     "short.txt" := demo_row "Herman" "Melville" "Moby Dick" EmptyString;
     "well.txt" := demo_row "Jane" "Austen" "Emma" EmptyString ]}.

(** The book of ["short.txt"] and the corpus of ["one/*.txt"]. *)
Definition demo_book1 : Book :=
  {| fullpath := "short.txt"; filename := "short.txt";
     set := list_to_set ["well"; "well-known"] |}.

Definition demo_book_well : Book :=
  {| fullpath := "one/well.txt"; filename := "well.txt";
     set := list_to_set ["well"] |}.

Definition demo_corpus : list Book := [demo_book_well].

(** The corpus of ["PG/*.txt"]. *)
Definition demo_book_all : Book :=
  {| fullpath := "PG/etext00/well.txt"; filename := "well.txt";
     set := list_to_set ["all"; "is"; "well"] |}.

Definition demo_book_whale : Book :=
  {| fullpath := "PG/etext01/whale.txt"; filename := "whale.txt";
     set := list_to_set ["the"; "whale"; "and"; "well"] |}.

Definition demo_corpus2 : list Book := [demo_book_all; demo_book_whale].

(** ** Where the markers go

    What line 216 does to the text, said without [re.sub]. *)

(** [[m.end() for m in re.finditer(pattern, text)]]: the offsets at which
    the matches of [re.sub] end. *)
Fixpoint match_ends_go (m : matcher) (skip : nat) (prev : option ascii)
    (pos : nat) (s : string) : list nat :=
  match s with
  | EmptyString => []
  | String c s' =>
      match skip with
      | S k => match_ends_go m k (Some c) (S pos) s'
      | O =>
          match m prev s with
          | Some (S k) => (pos + S k) :: match_ends_go m k (Some c) (S pos) s'
          | _ => match_ends_go m O (Some c) (S pos) s'
          end
      end
  end.

Definition match_ends (m : matcher) (text : string) : list nat :=
  match_ends_go m 0 None 0 text.

(** The text [s], which starts at the offset [pos], with [marker] put in at
    each offset of [ends]. *)
Fixpoint insert_at (ends : list nat) (marker : string) (pos : nat) (s : string)
    : string :=
  (if bool_decide (pos ∈ ends) then marker else EmptyString)
  +:+ match s with
      | EmptyString => EmptyString
      | String c s' => String c (insert_at ends marker (S pos) s')
      end.



(** The marker of the citation number [n], as it stands in the text. *)
Definition marker (n : nat) : string := "REF" +:+ str_of_nat n +:+ "REF".

(** The text with the marker of [n] after each whole-word occurrence of
    [word]. *)
Definition mark_word (word : string) (n : nat) (text : string) : string :=
  insert_at (match_ends (word_match word) text) (marker n) 0 text.


Section Markers.
Context {L : Library}.



End Markers.



(** * More of the script: definitions *)

(** ["/" in s] *)
Definition has_slash (s : string) : bool := str_existsb (fun c => code c =? 47) s.

(** ** [load_metadata]

    The reader of [csv.DictReader], past the four lines of the preamble
    and the header, is the list of its rows: a row has each field of the
    header, with [None] for a field a short line does not reach. *)

(** One turn of the loop of [load_metadata].  A key that is [None] (the
    [Text] of a short line) is stored by Python under [None], where no
    lookup by a file name finds it: the map by file name is unchanged. *)
Definition load_row (result : metadata_t) (row : gmap string (option string))
    : py metadata_t :=
  match row !! "Text" with
  | None => Raise (KeyError "Text")
  | Some key =>
      let row := delete "Text" row in
      match key with
      | Some k =>
          if bool_decide (k = EmptyString) then Ok result
          else Ok (<[k := row]> result)
      | None => Ok result
      end
  end.

Definition load_metadata (reader : list (gmap string (option string)))
    : py metadata_t :=
  py_for load_row reader ∅.

(** The rows of the reader whose [Text] is [k]. *)
Definition rows_of (k : string) (reader : list (gmap string (option string)))
    : list (gmap string (option string)) :=
  filter (fun row => row !! "Text" = Some (Some k)) reader.

(** Metadata without [None]: every field of every row is a [str]. *)
Definition filled (metadata : metadata_t) : Prop :=
  map_Forall (fun _ row => map_Forall (fun _ v => is_Some v) row) metadata.

(** The book has its title and the names of its author. *)
Definition has_title_and_author (metadata : metadata_t) (id : string) : Prop :=
  ∃ row, metadata !! id = Some row
    ∧ is_Some (row !! "Title") ∧ is_Some (row !! "Author-FN")
    ∧ is_Some (row !! "Author-LN").

(** ["REF" in s] *)
Definition ref_word_match : matcher := fun _ s =>
  match strip_REF s with
  | Some _ => Some 3
  | None => None
  end.

Definition has_REF (s : string) : bool := re_search ref_word_match s.

(** A book with a word that is no plain word, a reader with two rows for
    one file and a row for no file, and metadata with a row that has no
    subtitle field. *)
Definition demo_book_us : Book :=
  {| fullpath := "PG/etext02/us.txt"; filename := "us.txt";
     set := list_to_set ["u.s"] |}.

Definition demo_reader : list (gmap string (option string)) :=
  [ {[ "Text" := Some "emma10.txt"; "Title" := Some "Emma" ]};
    {[ "Text" := Some EmptyString; "Title" := Some "Emma in HTML" ]};
    {[ "Text" := Some "emma10.txt"; "Title" := Some "Emma, second edition" ]} ].

Definition demo_metadata_short : metadata_t :=
  {[ "well.txt" := {[ "Author-FN" := Some "Jane"; "Author-LN" := Some "Austen";
                      "Title" := Some "Emma" ]} ]}.

(** * Properties *)

(** ** The two patterns on short texts *)

Example sub_word_whale :
  re_sub (word_match "whale") (word_repl 3) "The Whale; whales, a whale"
  = "The WhaleREF3REF; whales, a whaleREF3REF".
Proof. vm_compute. reflexivity. Qed.

Example sub_ref_twice :
  sub_ref "aREF12REF REF7REFREF8REF REFxREF" = "a<r>12</r> <r>7</r><r>8</r> REFxREF".
Proof. vm_compute. reflexivity. Qed.

Example sub_ref_overlap : sub_ref "REF1REF2REF" = "<r>1</r>2REF".
Proof. vm_compute. reflexivity. Qed.

(** ** Strings *)

Lemma str_app_cons (c : ascii) (s t : string) : String c s +:+ t = String c (s +:+ t).
Proof. reflexivity. Qed.

Lemma str_app_assoc (s t u : string) : (s +:+ t) +:+ u = s +:+ (t +:+ u).
Proof. induction s as [|c s IH]; [reflexivity|]. rewrite !str_app_cons. by f_equal. Qed.

Lemma str_app_snoc (s t : string) (c : ascii) :
  (s +:+ String c EmptyString) +:+ t = s +:+ String c t.
Proof. by rewrite str_app_assoc. Qed.

Lemma lower_char_idem (c : ascii) : lower_char (lower_char c) = lower_char c.
Proof. destruct c as [[] [] [] [] [] [] [] []]; vm_compute; reflexivity. Qed.

Lemma lower_idem (s : string) : lower (lower s) = lower s.
Proof.
  unfold lower. induction s as [|c s IH]; simpl; [done|].
  by rewrite lower_char_idem, IH.
Qed.

(** ** No raw marker survives line 230 *)

Ltac split_char c := destruct c as [[] [] [] [] [] [] [] []]; try discriminate.

Lemma strip_REF_Some (s t : string) : strip_REF s = Some t → s = "REF" +:+ t.
Proof.
  destruct s as [|c1 s]; [discriminate|]. split_char c1.
  destruct s as [|c2 s]; [discriminate|]. split_char c2.
  destruct s as [|c3 s]; [discriminate|]. split_char c3.
  intros [= <-]. reflexivity.
Qed.

Lemma strip_REF_head (c : ascii) (s t : string) :
  strip_REF (String c s) = Some t → c = "R"%char.
Proof. intros H%strip_REF_Some. by injection H. Qed.

Lemma str_drop_nil (n : nat) : str_drop n EmptyString = EmptyString.
Proof. by destruct n. Qed.

Lemma str_take_app (s t : string) : str_take (String.length s) (s +:+ t) = s.
Proof. induction s as [|c s IH]; simpl; [by destruct t|]. by rewrite ?str_app_cons, IH. Qed.

Lemma str_drop_app (s t : string) : str_drop (String.length s) (s +:+ t) = t.
Proof. induction s as [|c s IH]; simpl; [by destruct t|]. by rewrite ?str_app_cons. Qed.

Lemma str_app_length (s t : string) :
  String.length (s +:+ t) = String.length s + String.length t.
Proof. induction s as [|c s IH]; simpl; [done|]. by rewrite ?str_app_cons; simpl; rewrite IH. Qed.

Lemma str_app_nil_r (s : string) : s +:+ EmptyString = s.
Proof. induction s as [|c s IH]; [done|]. by rewrite str_app_cons, IH. Qed.

(** What [span_digits] returns: digits, then a rest that starts with none. *)
Lemma span_digits_spec (s d r : string) :
  span_digits s = (d, r) →
  s = d +:+ r ∧ str_forallb is_digit d = true ∧ str_forallb is_digit (str_take 1 r) = false
  ∨ s = d ∧ r = EmptyString ∧ str_forallb is_digit d = true.
Proof.
  revert d r. induction s as [|c s IH]; intros d r; simpl.
  - intros [= <- <-]. by right.
  - destruct (is_digit c) eqn:Hc.
    + destruct (span_digits s) as [d' r'] eqn:Hs. intros [= <- <-].
      destruct (IH _ _ eq_refl) as [(-> & Hd & Hr)|(-> & -> & Hd)].
      * left. by rewrite ?str_app_cons; simpl; rewrite Hc, Hd.
      * right. by simpl; rewrite Hc, Hd.
    + intros [= <- <-]. left. by simpl; rewrite Hc.
Qed.

(** Text put after a rest that is not empty does not move the cut. *)
Lemma span_digits_app (u y : string) (c : ascii) (r : string) :
  (span_digits u).2 = String c r →
  span_digits (u +:+ y) = ((span_digits u).1, (span_digits u).2 +:+ y).
Proof.
  revert c r. induction u as [|a u IH]; intros c r; simpl; [discriminate|].
  rewrite ?str_app_cons; simpl. destruct (is_digit a) eqn:Ha; [|done].
  destruct (span_digits u) as [d' r'] eqn:Hu; simpl in *. intros Hr.
  by rewrite (IH _ _ Hr).
Qed.

(** A character that is no digit put after the text is where the digits
    stop at the latest. *)
Lemma span_digits_app_stop (u x : string) (c : ascii) :
  is_digit c = false →
  span_digits (u +:+ String c x) = ((span_digits u).1, (span_digits u).2 +:+ String c x).
Proof.
  intros Hc. induction u as [|a u IH]; simpl.
  - by change (EmptyString +:+ String c x) with (String c x); simpl; rewrite Hc.
  - rewrite ?str_app_cons; simpl. destruct (is_digit a) eqn:Ha; [|done].
    rewrite IH. by destruct (span_digits u).
Qed.

(** A [REF] that is read across the end of [r] and a [<] lies in [r]. *)
Lemma strip_REF_app_lt (r x t : string) :
  strip_REF (r +:+ String "<" x) = Some t → ∃ r3, r = "REF" +:+ r3.
Proof.
  intros H%strip_REF_Some.
  destruct r as [|c1 [|c2 [|c3 r]]]; try discriminate.
  injection H as -> -> -> _. by exists r.
Qed.

Lemma ref_match_prev (p p' : option ascii) (s : string) : ref_match p s = ref_match p' s.
Proof. reflexivity. Qed.

Lemma ref_match_pos (p : option ascii) (s : string) : ref_match p s ≠ Some 0.
Proof.
  unfold ref_match. destruct (strip_REF s); [|done].
  destruct (span_digits s0) as [[|c d] r]; [done|].
  by destruct (strip_REF r).
Qed.

(** A match that starts in [u] and is found before [<] ends in [u]: it is
    found whatever follows [u]. *)
Lemma ref_match_app_lt (p : option ascii) (u x y : string) (k : nat) :
  ref_match p (u +:+ String "<" x) = Some k → ref_match p (u +:+ y) = Some k.
Proof.
  unfold ref_match.
  destruct (strip_REF (u +:+ String "<" x)) as [s1|] eqn:E1; [|done].
  destruct (strip_REF_app_lt _ _ _ E1) as [u3 ->].
  apply strip_REF_Some in E1. rewrite str_app_assoc in E1.
  apply (inj (String.app "REF")) in E1 as <-. rewrite str_app_assoc.
  change (strip_REF ("REF" +:+ ?s)) with (Some s).
  rewrite span_digits_app_stop by done.
  destruct (span_digits u3) as [d r] eqn:E3; simpl.
  destruct d as [|c d]; [done|].
  destruct (strip_REF (r +:+ String "<" x)) as [s2|] eqn:E2; [|done].
  destruct (strip_REF_app_lt _ _ _ E2) as [r3 ->].
  intros [= <-].
  rewrite (span_digits_app u3 y "R" ("EF" +:+ r3)) by by rewrite E3.
  by rewrite E3.
Qed.

(** The text a match covers: [REF], digits, [REF]. *)
Lemma ref_match_Some (p : option ascii) (s : string) (k : nat) :
  ref_match p s = Some k →
  ∃ d, str_take k s = "REF" +:+ d +:+ "REF" ∧ str_forallb is_digit d = true
       ∧ k = 6 + String.length d.
Proof.
  unfold ref_match.
  destruct (strip_REF s) as [s1|] eqn:E1; [|done].
  apply strip_REF_Some in E1 as ->.
  destruct (span_digits s1) as [d r] eqn:E2.
  destruct d as [|c d]; [done|].
  destruct (strip_REF r) as [s2|] eqn:E3; [|done].
  apply strip_REF_Some in E3 as ->. intros [= <-].
  exists (String c d).
  destruct (span_digits_spec _ _ _ E2) as [(-> & Hd & _)|(_ & [=] & _)].
  split; [|split; [done|simpl; lia]].
  etrans; [|apply (str_take_app ("REF" +:+ String c d +:+ "REF") s2)].
  f_equal; [rewrite !str_app_length; simpl; lia|by rewrite !str_app_assoc].
Qed.

Lemma ref_repl_match (d : string) :
  ref_repl ("REF" +:+ d +:+ "REF") = "<r>" +:+ d +:+ "</r>".
Proof.
  unfold ref_repl. do 2 f_equal.
  replace (String.length ("REF" +:+ d +:+ "REF") - 6) with (String.length d)
    by (rewrite !str_app_length; simpl; lia).
  change (str_drop 3 ("REF" +:+ d +:+ "REF")) with (d +:+ "REF").
  apply str_take_app.
Qed.

(** Replacing from [s] on cannot complete a marker that starts in [u]: if
    one is read at the head of [u] followed by the new text, one was there
    with the old text. *)
Lemma ref_match_sub_go (s : string) :
  ∀ (skip : nat) (prev p : option ascii) (u : string) (k : nat),
    ref_match p (u +:+ re_sub_go ref_match ref_repl skip prev s) = Some k →
    ref_match p (u +:+ str_drop skip s) = Some k.
Proof.
  induction s as [|c s IH]; intros skip prev p u k.
  - rewrite str_drop_nil. exact (fun H => H).
  - destruct skip as [|skip]; [|exact (IH skip (Some c) p u k)].
    assert (Hkeep : ref_match p (u +:+ String c (re_sub_go ref_match ref_repl 0 (Some c) s))
                    = Some k → ref_match p (u +:+ String c s) = Some k).
    { rewrite <- (str_app_snoc u s c), <- (str_app_snoc u (re_sub_go _ _ _ _ _) c).
      exact (IH 0 (Some c) p _ k). }
    change (str_drop 0 (String c s)) with (String c s).
    cbn [re_sub_go].
    destruct (ref_match prev (String c s)) as [[|j]|]; [exact Hkeep| |exact Hkeep].
    unfold ref_repl. rewrite str_app_assoc.
    change ("<r>" +:+ ?x) with (String "<" ("r>" +:+ x)).
    apply ref_match_app_lt.
Qed.

(** No marker starts on a character other than [R]. *)
Lemma re_search_ref_cons (c : ascii) (x : string) (p : option ascii) :
  c ≠ "R"%char →
  re_search_go ref_match p (String c x) = re_search_go ref_match (Some c) x.
Proof.
  intros Hc. cbn [re_search_go].
  rewrite bool_decide_eq_false_2; [reflexivity|].
  intros [k Hk]. unfold ref_match in Hk.
  destruct (strip_REF (String c x)) as [t|] eqn:E; [|discriminate Hk].
  by apply strip_REF_head in E.
Qed.

Lemma digit_not_R (c : ascii) : is_digit c = true → c ≠ "R"%char.
Proof. intros Hc ->. vm_compute in Hc. discriminate Hc. Qed.

Lemma re_search_digits (d x : string) (p : option ascii) :
  str_forallb is_digit d = true →
  (∀ p', re_search_go ref_match p' x = false) →
  re_search_go ref_match p (d +:+ x) = false.
Proof.
  intros Hd Hx. revert p Hd. induction d as [|c d IH]; intros p Hd.
  - apply Hx.
  - cbn [str_forallb] in Hd. apply andb_prop in Hd as [Hc Hd].
    rewrite str_app_cons, re_search_ref_cons by by apply digit_not_R.
    by apply IH.
Qed.

Lemma re_search_sub_go (s : string) :
  ∀ (skip : nat) (prev p : option ascii),
    re_search_go ref_match p (re_sub_go ref_match ref_repl skip prev s) = false.
Proof.
  induction s as [|c s IH]; intros skip prev p; [reflexivity|].
  destruct skip as [|skip]; [|exact (IH skip (Some c) p)].
  assert (Hkeep : ref_match prev (String c s) = None →
                  re_search_go ref_match p
                    (String c (re_sub_go ref_match ref_repl 0 (Some c) s)) = false).
  { intros Hnone. cbn [re_search_go]. rewrite IH, orb_false_r.
    apply bool_decide_eq_false_2. intros [k Hk].
    apply (ref_match_sub_go s 0 (Some c) p (String c EmptyString) k) in Hk.
    change (ref_match prev (String c s) = Some k) in Hk. congruence. }
  cbn [re_sub_go].
  destruct (ref_match prev (String c s)) as [[|j]|] eqn:Hm.
  - by apply ref_match_pos in Hm.
  - destruct (ref_match_Some _ _ _ Hm) as (d & -> & Hd & _).
    rewrite ref_repl_match, !str_app_assoc.
    change ("<r>" +:+ ?x) with (String "<" (String "r" (String ">" x))).
    rewrite !re_search_ref_cons by discriminate.
    apply re_search_digits; [exact Hd|]. intros p'.
    change ("</r>" +:+ ?x) with (String "<" (String "/" (String "r" (String ">" x)))).
    rewrite !re_search_ref_cons by discriminate.
    apply IH.
  - by apply Hkeep.
Qed.

(** C3. Whatever the text the loop hands over, once line 230 has replaced
    every match of [REF(\d+)REF] by its tag, the text has no match of
    [REF\d+REF] left: no raw marker remains in the body of the page. *)
Theorem no_raw_marker_left (text : string) :
  has_raw_marker (sub_ref text) = false.
Proof. apply re_search_sub_go. Qed.

(** ** Lists and the citation list *)

Lemma py_for_app {A S} (f : S → A → py S) (xs ys : list A) (st : S) :
  py_for f (xs ++ ys)%list st = let* st' := py_for f xs st in py_for f ys st'.
Proof.
  revert st. induction xs as [|x xs IH]; intros st; simpl; [done|].
  destruct (f st x); simpl; [apply IH|done].
Qed.

Lemma list_index_Ok (x : string) (l : list string) (i : nat) :
  list_index x l = Ok i → l !! i = Some x.
Proof.
  revert i. induction l as [|y l IH]; intros i; simpl; [done|].
  case_bool_decide as Hy; [by intros [= <-]; subst|].
  destruct (list_index x l) as [j|]; simpl; [|done].
  intros [= <-]. by apply IH.
Qed.

Lemma list_index_elem (x : string) (l : list string) :
  x ∈ l → ∃ i, list_index x l = Ok i.
Proof.
  induction l as [|y l IH]; [by intros ?%elem_of_nil|].
  intros Hx. simpl. case_bool_decide as Hy; [by eexists|].
  apply elem_of_cons in Hx as [->|Hx]; [done|].
  destruct (IH Hx) as [i ->]. by eexists.
Qed.

Lemma add_cite_elem (x : string) (l : list string) : x ∈ add_cite x l.
Proof. unfold add_cite. case_bool_decide; [done|]. apply elem_of_app; right. by left. Qed.

Lemma add_cite_NoDup (x : string) (l : list string) : NoDup l → NoDup (add_cite x l).
Proof.
  intros Hl. unfold add_cite. case_bool_decide as Hx; [done|].
  apply NoDup_app; split_and!; [done| |apply NoDup_singleton].
  intros y Hy ->%list_elem_of_singleton. done.
Qed.

Lemma add_cite_lookup (x y : string) (l : list string) (i : nat) :
  l !! i = Some y → add_cite x l !! i = Some y.
Proof.
  intros Hi. unfold add_cite. case_bool_decide; [done|]. by apply lookup_app_l_Some.
Qed.

Lemma first_occurrences_elem (x : string) (l : list string) :
  x ∈ first_occurrences l ↔ x ∈ l.
Proof.
  induction l as [|y l IH]; simpl; [done|].
  rewrite !elem_of_cons, list_elem_of_filter, IH.
  destruct (decide (x = y)); tauto.
Qed.

Lemma first_occurrences_snoc (x : string) (l : list string) :
  first_occurrences (l ++ [x]) = add_cite x (first_occurrences l).
Proof.
  induction l as [|y l IH]; simpl; [done|].
  rewrite IH. unfold add_cite.
  destruct (decide (x = y)) as [->|Hxy].
  - rewrite (bool_decide_eq_true_2 (y ∈ y :: _)) by left.
    case_bool_decide as Hy; [done|].
    rewrite filter_app, filter_cons_False, filter_nil by (intros ?; done).
    by rewrite List.app_nil_r.
  - case_bool_decide as Hx.
    + rewrite bool_decide_eq_true_2; [done|].
      right. apply list_elem_of_filter. done.
    + rewrite bool_decide_eq_false_2.
      * rewrite filter_app, filter_cons_True, filter_nil by done. done.
      * intros [?|[_ ?]%list_elem_of_filter]%elem_of_cons; done.
Qed.

Lemma first_occurrences_NoDup (l : list string) : NoDup (first_occurrences l).
Proof.
  induction l as [|y l IH]; simpl; [constructor|].
  constructor; [|by apply NoDup_filter].
  intros [? _]%list_elem_of_filter. done.
Qed.

Lemma first_with_Some (word : string) (books : list Book) (b : Book) :
  first_with word books = Some b → b ∈ books ∧ lower word ∈ set b.
Proof.
  unfold first_with. intros [Hin Hb]%find_some.
  split; [by apply list_elem_of_In|]. by apply bool_decide_eq_true in Hb.
Qed.

Lemma first_with_None (word : string) (books : list Book) :
  first_with word books = None ↔ ∀ b, b ∈ books → lower word ∉ set b.
Proof.
  unfold first_with. split.
  - intros Hnone b Hb%list_elem_of_In.
    apply (find_none _ _ Hnone) in Hb. by apply bool_decide_eq_false in Hb.
  - intros Hall. destruct (find _ books) as [b|] eqn:Hf; [|done].
    apply find_some in Hf as [Hin Hb%bool_decide_eq_true].
    by apply list_elem_of_In, Hall in Hin.
Qed.

(** ** One turn of the loop *)

Section Run.
Context {L : Library}.

Lemma citify_app (ws1 ws2 : list string) (st st2 : state) :
  citify (ws1 ++ ws2) st = Ok st2 →
  ∃ st1, citify ws1 st = Ok st1 ∧ citify ws2 st1 = Ok st2.
Proof.
  unfold citify. rewrite py_for_app.
  destruct (py_for citify_word ws1 st) as [st1|]; simpl; [|done].
  intros H. by exists st1.
Qed.

(** The three ways a turn can end well: the word is passed over, no book
    has it, or a book is cited for it. *)
Lemma citify_word_Ok (st st' : state) (w : string) :
  citify_word st w = Ok st' →
  ((lower w ∈ done st ∨ has_star w = true) ∧ st' = st)
  ∨ ((lower w ∉ done st) ∧ has_star w = false
     ∧ done st' = done st ∪ {[lower w]}
     ∧ books st' = (shuffle (rng st) (books st)).2
     ∧ ((first_with w (books st') = None
         ∧ cite_filenames st' = cite_filenames st
         ∧ book1_text st' = book1_text st
         ∧ history st' = history st)
        ∨ (∃ b i,
             first_with w (books st') = Some b
             ∧ cite_filenames st' = add_cite (filename b) (cite_filenames st)
             ∧ list_index (filename b) (cite_filenames st') = Ok i
             ∧ sub_word w (i + 1) (book1_text st) = Ok (book1_text st')
             ∧ history st' = (history st ++ [(w, b, i + 1)])%list))).
Proof.
  unfold citify_word. case_bool_decide as Hdone; [intros [= <-]; left; auto|].
  destruct (has_star w) eqn:Hstar; [intros [= <-]; left; auto|].
  destruct (shuffle (rng st) (books st)) as [rng' books'] eqn:Hsh.
  destruct (first_with w books') as [b|] eqn:Hfirst.
  - destruct (list_index _ _) as [i|] eqn:Hi; simpl; [|done].
    destruct (sub_word _ _ _) as [text|] eqn:Hsub; simpl; [|done].
    intros [= <-]. right. simpl. split_and!; try done.
    right. exists b, i. done.
  - intros [= <-]. right. simpl. split_and!; try done. by left.
Qed.

Lemma replay_snoc (h : list (string * Book * nat)) (w : string) (b : Book)
    (n : nat) (text : string) :
  replay (h ++ [(w, b, n)]) text = py_bind (replay h text) (sub_word w n).
Proof.
  revert text. induction h as [|[[w' b'] n'] h IH]; intros text; simpl.
  - by destruct (sub_word w n text).
  - destruct (sub_word w' n' text); simpl; [apply IH|done].
Qed.

Lemma citify_word_cites_inv (text0 : string) (st st' : state) (w : string) :
  cites_inv text0 st → citify_word st w = Ok st' → cites_inv text0 st'.
Proof.
  intros [Hnd Hord Hhist Hrep] Hstep.
  apply citify_word_Ok in Hstep
    as [[_ ->]|(Hdone & Hstar & Hd' & _ & [(_ & Hc & Ht & Hh)|(b & i & Hf & Hc & Hi & Hs & Hh)])];
    [done| |].
  - constructor; rewrite ?Hc, ?Hh, ?Ht; try done.
    intros w' b' n' Hin. destruct (Hhist _ _ _ Hin) as (? & ? & ? & ? & ?).
    rewrite Hd'. split_and!; try done. apply elem_of_union; by left.
  - apply first_with_Some in Hf as [_ Hset].
    constructor.
    + rewrite Hc. by apply add_cite_NoDup.
    + rewrite Hc, Hh, Hord. unfold discovered. rewrite fmap_app. simpl.
      by rewrite first_occurrences_snoc.
    + intros w' b' n'. rewrite Hh, elem_of_app, list_elem_of_singleton, Hd'.
      intros [Hin|[= -> -> ->]].
      * destruct (Hhist _ _ _ Hin) as (? & ? & ? & ? & ?).
        split_and!; try done; [apply elem_of_union; by left|]. rewrite Hc. by apply add_cite_lookup.
      * split_and!; try done; [apply elem_of_union; right; by apply elem_of_singleton|lia|].
        replace (i + 1 - 1) with i by lia. by apply list_index_Ok.
    + rewrite Hh, replay_snoc, Hrep. simpl. done.
Qed.

Lemma citify_word_corpus_inv (books0 : list Book) (st st' : state) (w : string) :
  shuffle_permutes L →
  corpus_inv books0 st → citify_word st w = Ok st' → corpus_inv books0 st'.
Proof.
  intros Hperm [Hb Hcited] Hstep.
  apply citify_word_Ok in Hstep
    as [[_ ->]|(_ & _ & _ & Hb' & [(_ & _ & _ & Hh)|(b & i & Hf & _ & _ & _ & Hh)])];
    [done| |].
  - constructor; [rewrite Hb'; by etrans; [apply Hperm|]|by rewrite Hh].
  - constructor; [rewrite Hb'; by etrans; [apply Hperm|]|].
    intros w' b' n'. rewrite Hh, elem_of_app, list_elem_of_singleton.
    intros [Hin|[= -> -> ->]]; [by eapply Hcited|].
    apply first_with_Some in Hf as [Hin _].
    rewrite Hb' in Hin. rewrite <- Hb. by rewrite <- (Hperm (rng st) (books st)).
Qed.

Lemma citify_cites_inv (text0 : string) (ws : list string) (st st' : state) :
  cites_inv text0 st → citify ws st = Ok st' → cites_inv text0 st'.
Proof.
  revert st. induction ws as [|w ws IH]; intros st Hinv; simpl; [by intros [= <-]|].
  unfold citify; simpl. destruct (citify_word st w) as [st1|] eqn:Hstep; simpl; [|done].
  apply IH. by eapply citify_word_cites_inv.
Qed.

Lemma citify_corpus_inv (books0 : list Book) (ws : list string) (st st' : state) :
  shuffle_permutes L →
  corpus_inv books0 st → citify ws st = Ok st' → corpus_inv books0 st'.
Proof.
  intros Hperm. revert st. induction ws as [|w ws IH]; intros st Hinv; simpl;
    [by intros [= <-]|].
  unfold citify; simpl. destruct (citify_word st w) as [st1|] eqn:Hstep; simpl; [|done].
  apply IH. by eapply citify_word_corpus_inv.
Qed.

Lemma init_cites_inv (text : string) (books0 : list Book) (r : Rng) :
  cites_inv text (init_state text books0 r).
Proof. constructor; simpl; try done; [constructor|by intros ??? ?%elem_of_nil]. Qed.

Lemma init_corpus_inv (text : string) (books0 : list Book) (r : Rng) :
  corpus_inv books0 (init_state text books0 r).
Proof. constructor; simpl; [done|by intros ??? ?%elem_of_nil]. Qed.

(** *** Words met once *)

Lemma citify_word_done (st st' : state) (w : string) :
  citify_word st w = Ok st' →
  done st' = done st ∨ (has_star w = false ∧ done st' = done st ∪ {[lower w]}).
Proof.
  intros [[_ ->]|(_ & Hstar & Hd & _)]%citify_word_Ok; [by left|by right].
Qed.

Lemma citify_word_books (st st' : state) (w : string) :
  shuffle_permutes L → citify_word st w = Ok st' → books st' ≡ₚ books st.
Proof.
  intros Hperm [[_ ->]|(_ & _ & _ & -> & _)]%citify_word_Ok; [done|apply Hperm].
Qed.

Lemma fresh_step (w : string) (ws : list string) (st st' : state) :
  Forall (fun w => lower w = w) (w :: ws) → NoDup (w :: ws) →
  fresh (w :: ws) st → citify_word st w = Ok st' → fresh ws st'.
Proof.
  intros Hlow Hnd Hfresh Hstep w' Hw'.
  apply Forall_cons in Hlow as [Hw Hlow]. apply NoDup_cons in Hnd as [Hnotin _].
  assert (lower w' ∉ done st) as Hold by (apply Hfresh; by right).
  apply citify_word_done in Hstep as [->|[_ ->]]; [done|].
  intros [?|Heq%elem_of_singleton]%elem_of_union; [done|].
  rewrite Hw in Heq. rewrite (proj1 (Forall_forall _ _) Hlow w' Hw') in Heq.
  by subst.
Qed.

(** The loop over words that are lowercase, distinct and new adds to
    [done] the ones without a star, and no other. *)
Lemma citify_done (ws : list string) (st st' : state) :
  Forall (fun w => lower w = w) ws → NoDup ws → fresh ws st →
  citify ws st = Ok st' →
  done st' = done st ∪ list_to_set (filter (fun w => has_star w = false) ws).
Proof.
  revert st. induction ws as [|w ws IH]; intros st Hlow Hnd Hfresh.
  - intros [= <-]. simpl. by rewrite (right_id_L ∅ (∪)).
  - unfold citify; simpl.
    destruct (citify_word st w) as [st1|] eqn:Hstep; simpl; [|done]. intros Hrest.
    pose proof (fresh_step _ _ _ _ Hlow Hnd Hfresh Hstep) as Hfresh1.
    apply Forall_cons in Hlow as [Hw Hlow]. apply NoDup_cons in Hnd as [Hnotin Hnd].
    rewrite (IH st1 Hlow Hnd Hfresh1 Hrest).
    apply citify_word_Ok in Hstep as [[[Hin|Hstar] ->]|(_ & Hstar & -> & _)].
    + exfalso. apply (Hfresh w); [by left|done].
    + by rewrite filter_cons_False by by rewrite Hstar.
    + rewrite filter_cons_True by done. rewrite Hw. simpl.
      by rewrite (assoc_L (∪)).
Qed.

(** A turn for another word, or for a word with a star, leaves the entries
    of [W] as they are. *)
Lemma citify_word_entries_other (st st' : state) (w W : string) :
  citify_word st w = Ok st' → W ≠ w ∨ has_star W = true →
  entries_of W (history st') = entries_of W (history st).
Proof.
  intros Hstep Hother.
  apply citify_word_Ok in Hstep
    as [[_ ->]|(_ & Hstar & _ & _ & [(_ & _ & _ & ->)|(b & i & _ & _ & _ & _ & ->)])];
    [done..|].
  unfold entries_of. rewrite filter_app, filter_cons_False, filter_nil.
  - by rewrite List.app_nil_r.
  - simpl. intros ->. destruct Hother; congruence.
Qed.

Lemma citify_entries_other (ws : list string) (st st' : state) (W : string) :
  citify ws st = Ok st' → W ∉ ws ∨ has_star W = true →
  entries_of W (history st') = entries_of W (history st).
Proof.
  revert st. induction ws as [|w ws IH]; intros st; [by intros [= <-]|].
  unfold citify; simpl.
  destruct (citify_word st w) as [st1|] eqn:Hstep; simpl; [|done]. intros Hrest Hother.
  rewrite (IH st1 Hrest).
  - apply (citify_word_entries_other _ _ _ _ Hstep).
    destruct Hother as [Hnotin|?]; [left|by right]. intros ->. apply Hnotin. by left.
  - destruct Hother as [Hnotin|?]; [left|by right]. intros ?. apply Hnotin. by right.
Qed.

(** The turn of a new word without a star: no book of the corpus has it
    and nothing is recorded, or one entry is, for a book that has it. *)
Lemma citify_word_entries_self (books0 : list Book) (st st' : state) (w : string) :
  shuffle_permutes L → books st ≡ₚ books0 →
  lower w ∉ done st → has_star w = false → citify_word st w = Ok st' →
  ((∀ b, b ∈ books0 → lower w ∉ set b) ∧ history st' = history st)
  ∨ (∃ b n, b ∈ books0 ∧ lower w ∈ set b
            ∧ history st' = (history st ++ [(w, b, n)])%list).
Proof.
  intros Hperm Hbooks Hnew Hstar Hstep.
  assert (books st' ≡ₚ books0) as Hbooks'
    by (etrans; [by eapply citify_word_books|done]).
  apply citify_word_Ok in Hstep
    as [[[?|?] _]|(_ & _ & _ & _ & [(Hnone & _ & _ & ->)|(b & i & Hf & _ & _ & _ & ->)])];
    [done|congruence| |].
  - left. split; [|done]. intros b Hb. rewrite <- Hbooks' in Hb.
    by apply (proj1 (first_with_None _ _) Hnone).
  - right. apply first_with_Some in Hf as [Hin Hset].
    exists b, (i + 1). by rewrite <- Hbooks'.
Qed.

Lemma citify_entries_self (books0 : list Book) (ws : list string) (st st' : state)
    (W : string) :
  shuffle_permutes L → books st ≡ₚ books0 →
  Forall (fun w => lower w = w) ws → NoDup ws → fresh ws st →
  citify ws st = Ok st' → W ∈ ws → has_star W = false →
  ((∀ b, b ∈ books0 → lower W ∉ set b)
   ∧ entries_of W (history st') = entries_of W (history st))
  ∨ (∃ b n, b ∈ books0 ∧ lower W ∈ set b
            ∧ entries_of W (history st')
              = (entries_of W (history st) ++ [(W, b, n)])%list).
Proof.
  intros Hperm. revert st. induction ws as [|w ws IH];
    intros st Hbooks Hlow Hnd Hfresh; [by intros _ ?%elem_of_nil|].
  unfold citify; simpl.
  destruct (citify_word st w) as [st1|] eqn:Hstep; simpl; [|done].
  intros Hrest HW Hstar.
  pose proof (fresh_step _ _ _ _ Hlow Hnd Hfresh Hstep) as Hfresh1.
  assert (books st1 ≡ₚ books0) as Hbooks1
    by (etrans; [by eapply citify_word_books|done]).
  apply Forall_cons in Hlow as [Hw Hlow]. apply NoDup_cons in Hnd as [Hnotin Hnd].
  destruct (decide (W = w)) as [->|Hne].
  - rewrite (citify_entries_other ws st1 st' w Hrest) by by left.
    assert (lower w ∉ done st) as Hnew by (apply Hfresh; by left).
    destruct (citify_word_entries_self books0 _ _ _ Hperm Hbooks Hnew Hstar Hstep)
      as [[Hnone ->]|(b & n & Hb & Hset & ->)]; [by left|].
    right. exists b, n. split_and!; try done.
    unfold entries_of. by rewrite filter_app, filter_cons_True.
  - apply elem_of_cons in HW as [?|HW]; [done|].
    rewrite <- (citify_word_entries_other st st1 w W Hstep) by by left.
    by apply IH.
Qed.

End Run.

(** ** Books *)

Section Claims.
Context {L : Library}.

(** The bag of words of a book made by [Book.__init__] is lowercase. *)
Lemma new_Book_lowercase (fs : disk) (file : string) (book : Book) :
  new_Book fs file = Ok book → ∀ w, w ∈ set book → lower w = w.
Proof.
  unfold new_Book. intros Hnew w.
  destruct (match Book_text fs file with
            | Raise UnicodeDecodeError => Ok EmptyString
            | r => r
            end) as [text|]; simpl in Hnew; [|done].
  injection Hnew as <-. simpl.
  rewrite elem_of_list_to_set, list_elem_of_fmap. intros (y & -> & _).
  apply lower_idem.
Qed.

Lemma lists_set_lowercase (fs : disk) (file : string) (book : Book) (ws : list string) :
  new_Book fs file = Ok book → lists_set ws (set book) →
  Forall (fun w => lower w = w) ws.
Proof.
  intros Hnew [_ Hws]. apply Forall_forall. intros w Hw.
  apply (new_Book_lowercase _ _ _ Hnew), Hws, Hw.
Qed.

Lemma fresh_init (ws : list string) (text : string) (books0 : list Book) (r : Rng) :
  fresh ws (init_state text books0 r).
Proof. intros w _. simpl. apply not_elem_of_empty. Qed.

Lemma entries_of_elem (W : string) (h : list (string * Book * nat)) (b : Book) (n : nat) :
  (W, b, n) ∈ entries_of W h ↔ (W, b, n) ∈ h.
Proof. unfold entries_of. rewrite list_elem_of_filter. simpl. tauto. Qed.

(** ** The claims *)

(** C1, amended. For every word W of the bag of words of the primary book
    that has no star: the history replayed on the primary text gives the
    final text, and either no book of the corpus has W and no substitution
    was made for W, or exactly one was, with one number n, and n is the
    place in the citation list of the file name of a book of the corpus
    that has the lowercase of W. *)
Theorem word_cited_once (Hperm : shuffle_permutes L)
    (fs : disk) (infile1 : string) (book1 : Book) (text : string)
    (books0 : list Book) (r : Rng) (ws : list string) (st : state) (W : string) :
  new_Book fs infile1 = Ok book1 →
  lists_set ws (set book1) →
  citify ws (init_state text books0 r) = Ok st →
  W ∈ set book1 → has_star W = false →
  replay (history st) text = Ok (book1_text st)
  ∧ (((∀ b, b ∈ books0 → lower W ∉ set b) ∧ entries_of W (history st) = [])
     ∨ (∃ b n, entries_of W (history st) = [(W, b, n)]
               ∧ b ∈ books0 ∧ lower W ∈ set b
               ∧ 1 ≤ n ∧ cite_filenames st !! (n - 1) = Some (filename b))).
Proof.
  intros Hnew Hws Hrun HW Hstar.
  pose proof (citify_cites_inv text ws _ _ (init_cites_inv text books0 r) Hrun) as Hinv.
  split; [apply Hinv|].
  pose proof (lists_set_lowercase _ _ _ _ Hnew Hws) as Hlow.
  destruct Hws as [Hnd Hws]. apply Hws in HW.
  destruct (citify_entries_self books0 ws _ _ W Hperm (reflexivity _) Hlow Hnd
              (fresh_init _ _ _ _) Hrun HW Hstar)
    as [[Hnone Hent]|(b & n & Hb & Hset & Hent)]; simpl in Hent.
  - left. done.
  - right. exists b, n. split_and!; try done.
    + assert ((W, b, n) ∈ history st) as Hin
        by (apply entries_of_elem; rewrite Hent; by left).
      by destruct (inv_history _ _ Hinv _ _ _ Hin) as (_ & _ & _ & ? & _).
    + assert ((W, b, n) ∈ history st) as Hin
        by (apply entries_of_elem; rewrite Hent; by left).
      by destruct (inv_history _ _ Hinv _ _ _ Hin) as (_ & _ & _ & _ & ?).
Qed.

(** C2. After every turn of the loop, that is for the state [st1] reached
    after any first part [ws1] of the words of a run that ends well: the
    citation list has no file name twice; it is the list of the file names
    cited so far, each at the place of its first citation; the number of
    each citation is the place of its file name in the list, counted from
    1; and every number from 1 to the length of the list is in use. *)
Theorem citation_list_dense (text : string) (books0 : list Book) (r : Rng)
    (ws1 ws2 : list string) (st2 : state) :
  citify (ws1 ++ ws2) (init_state text books0 r) = Ok st2 →
  ∃ st1, citify ws1 (init_state text books0 r) = Ok st1
    ∧ NoDup (cite_filenames st1)
    ∧ cite_filenames st1 = first_occurrences (discovered (history st1))
    ∧ (∀ w b n, (w, b, n) ∈ history st1 →
         1 ≤ n ∧ cite_filenames st1 !! (n - 1) = Some (filename b))
    ∧ (∀ k, 1 ≤ k ≤ length (cite_filenames st1) →
         ∃ w b, (w, b, k) ∈ history st1).
Proof.
  intros (st1 & Hrun1 & _)%citify_app. exists st1. split; [done|].
  pose proof (citify_cites_inv text ws1 _ _ (init_cites_inv text books0 r) Hrun1)
    as [Hnd Hord Hhist _].
  split_and!; try done.
  - intros w b n Hin. by destruct (Hhist _ _ _ Hin) as (_ & _ & _ & ? & ?).
  - intros k [Hk1 Hk2].
    destruct (lookup_lt_is_Some_2 (cite_filenames st1) (k - 1)) as [f Hf]; [lia|].
    assert (f ∈ discovered (history st1)) as Hin.
    { apply first_occurrences_elem. rewrite <- Hord. by eapply list_elem_of_lookup_2. }
    apply list_elem_of_fmap in Hin as ([[w b] n] & -> & Hin). simpl in Hf.
    destruct (Hhist _ _ _ Hin) as (_ & _ & _ & Hn & Hlook).
    assert (n - 1 = k - 1) as Heq by (eapply NoDup_lookup; done).
    exists w, b. by replace k with n by lia.
Qed.

(** C7. Two runs on the same primary book and the same corpus, with any
    two states of the random generator and any two orders of the bag of
    words: a book cited for a word in one run is one of the books of the
    corpus that have the word, and the other run cites for this word a
    book of the same set. *)
Theorem same_sources_in_two_runs (Hperm : shuffle_permutes L)
    (fs : disk) (infile1 : string) (book1 : Book) (text : string)
    (books0 : list Book) (ws1 ws2 : list string) (r1 r2 : Rng)
    (st1 st2 : state) (w : string) (b : Book) (n : nat) :
  new_Book fs infile1 = Ok book1 →
  lists_set ws1 (set book1) → lists_set ws2 (set book1) →
  citify ws1 (init_state text books0 r1) = Ok st1 →
  citify ws2 (init_state text books0 r2) = Ok st2 →
  (w, b, n) ∈ history st1 →
  b ∈ sources books0 w
  ∧ ∃ b' n', (w, b', n') ∈ history st2 ∧ b' ∈ sources books0 w.
Proof.
  intros Hnew Hws1 Hws2 Hrun1 Hrun2 Hin.
  pose proof (citify_cites_inv text ws1 _ _ (init_cites_inv text books0 r1) Hrun1) as Hinv1.
  pose proof (citify_corpus_inv books0 ws1 _ _ Hperm (init_corpus_inv text books0 r1) Hrun1)
    as Hcorp1.
  destruct (inv_history _ _ Hinv1 _ _ _ Hin) as (Hset & Hstar & _).
  pose proof (inv_cited _ _ Hcorp1 _ _ _ Hin) as Hb.
  assert (w ∈ ws1) as Hw1.
  { destruct (decide (w ∈ ws1)) as [|Hnot]; [done|].
    pose proof (citify_entries_other ws1 _ _ w Hrun1 (or_introl Hnot)) as Hent.
    apply entries_of_elem in Hin. rewrite Hent in Hin. by apply elem_of_nil in Hin. }
  assert (w ∈ ws2) as Hw2 by (apply Hws2, Hws1, Hw1).
  split; [unfold sources; by apply list_elem_of_filter|].
  pose proof (lists_set_lowercase _ _ _ _ Hnew Hws2) as Hlow.
  destruct (citify_entries_self books0 ws2 _ _ w Hperm (reflexivity _) Hlow (proj1 Hws2)
              (fresh_init _ _ _ _) Hrun2 Hw2 Hstar)
    as [[Hnone _]|(b' & n' & Hb' & Hset' & Hent)]; [by apply Hnone in Hb|].
  exists b', n'. split; [|unfold sources; by apply list_elem_of_filter].
  apply entries_of_elem. rewrite Hent. apply elem_of_app. right. by left.
Qed.

(** C10. The bag of words of the primary book is lowercase; so, in a run
    over it that ends well, when the loop comes to a word its lowercase is
    not in [done] (the first guard passes over no word), and at the end
    [done] is the bag of words without the words that have a star. *)
Theorem done_is_words_without_star
    (fs : disk) (infile1 : string) (book1 : Book) (text : string)
    (books0 : list Book) (r : Rng) (ws : list string) (st : state) :
  new_Book fs infile1 = Ok book1 →
  lists_set ws (set book1) →
  citify ws (init_state text books0 r) = Ok st →
  (∀ w, w ∈ set book1 → lower w = w)
  ∧ (∀ ws1 w ws2, ws = (ws1 ++ w :: ws2)%list →
       ∃ st1, citify ws1 (init_state text books0 r) = Ok st1
              ∧ lower w ∉ done st1)
  ∧ done st = filter (fun w => has_star w = false) (set book1).
Proof.
  intros Hnew Hws Hrun.
  pose proof (lists_set_lowercase _ _ _ _ Hnew Hws) as Hlow.
  destruct Hws as [Hnd Hws].
  split_and!.
  - by apply (new_Book_lowercase _ _ _ Hnew).
  - intros ws1 w ws2 ->.
    destruct (citify_app _ _ _ _ Hrun) as (st1 & Hrun1 & _). exists st1. split; [done|].
    apply Forall_app in Hlow as [Hlow1 [Hw _]%Forall_cons].
    apply NoDup_app in Hnd as (Hnd1 & Hdisj & _).
    rewrite (citify_done ws1 _ _ Hlow1 Hnd1 (fresh_init _ _ _ _) Hrun1). simpl.
    rewrite Hw. intros [?%not_elem_of_empty|Hin]%elem_of_union; [done|].
    apply elem_of_list_to_set, list_elem_of_filter in Hin as [_ Hin].
    apply (Hdisj w Hin). by left.
  - rewrite (citify_done ws _ _ Hlow Hnd (fresh_init _ _ _ _) Hrun). simpl.
    apply set_eq. intros x.
    rewrite elem_of_union, elem_of_list_to_set, list_elem_of_filter, elem_of_filter, Hws.
    split; [intros [?%not_elem_of_empty|?]; done|by right].
Qed.

(** C6. A file whose bytes cp1252 does not decode still makes a book: its
    bag of words is empty, no search for a word stops at it, and no run
    cites it. *)
Theorem undecodable_book_is_empty (Hwords : words_of_empty L)
    (fs : disk) (file bytes : string) :
  fs !! file = Some bytes →
  decode_cp1252 bytes = Raise UnicodeDecodeError →
  ∃ book, new_Book fs file = Ok book
    ∧ fullpath book = file ∧ filename book = basename file ∧ set book = ∅
    ∧ (∀ word books, first_with word books ≠ Some book)
    ∧ (∀ text books0 r ws st w n,
         citify ws (init_state text books0 r) = Ok st → (w, book, n) ∉ history st).
Proof.
  intros Hfile Hdec. eexists. split.
  { unfold new_Book, Book_text. rewrite Hfile, Hdec. simpl. reflexivity. }
  simpl. rewrite Hwords. simpl. split_and!; try done.
  - intros word books [_ Hin]%first_with_Some. simpl in Hin.
    by apply not_elem_of_empty in Hin.
  - intros text books0 r ws st w n Hrun Hin.
    pose proof (citify_cites_inv text ws _ _ (init_cites_inv text books0 r) Hrun) as Hinv.
    destruct (inv_history _ _ Hinv _ _ _ Hin) as (Hset & _). simpl in Hset.
    by apply not_elem_of_empty in Hset.
Qed.

End Claims.

(** ** The reference list and the page *)




(** C5. For a file name that the metadata do not have, the turn of
    [make_cites] raises nothing: its entry has the author
    [[Unknown author]] and the title [[name]], the name is printed twice,
    and the loop goes on with the next file name. *)
Theorem missing_metadata_placeholder (metadata : metadata_t) (i : nat)
    (id : string) (rest : list string) :
  metadata !! id = None →
  let entry := "<r>" +:+ str_of_nat (i + 1) +:+ "</r> " +:+ "[Unknown author]"
               +:+ ", <i>" +:+ ("[" +:+ id +:+ "]") +:+ "</i>" in
  make_cite metadata i id = Ok (entry, [id; id])
  ∧ make_cites_from metadata i (id :: rest)
    = py_bind (make_cites_from metadata (S i) rest)
        (fun r => Ok (entry :: r.1, id :: id :: r.2)).
Proof.
  intros Hnone entry.
  assert (make_cite metadata i id = Ok (entry, [id; id])) as Hcite.
  { unfold make_cite, cite_author, cite_title, getitem. by rewrite Hnone. }
  split; [done|]. simpl. rewrite Hcite. simpl.
  by destruct (make_cites_from metadata (S i) rest) as [[out ps]|].
Qed.

(** C8. With an empty citation list there is no co-author, the header of
    the page fails on the last element of the empty list with an
    [IndexError], and [render] returns no page. *)
Theorem empty_citations_break_header (metadata : metadata_t)
    (title first_author book1_filename book1_text : string) :
  get_coauthors [] metadata = Ok []
  ∧ header title first_author [] = Raise IndexError
  ∧ ∃ e, render metadata book1_filename book1_text [] = Raise e.
Proof.
  split_and!; [done..|].
  unfold render.
  destruct (getitem metadata book1_filename "Title"); simpl; [|by eexists].
  destruct (getitem metadata book1_filename "Author-FN"); simpl; [|by eexists].
  destruct (str_strip _); simpl; [|by eexists].
  destruct (getitem metadata book1_filename "Author-LN"); simpl; [|by eexists].
  destruct (str_strip _); simpl; [|by eexists].
  by eexists.
Qed.

(** ** Where [re.sub] puts the markers *)









Example mark_word_whale :
  mark_word "whale" 3 "The Whale; whales, a whale"
  = "The WhaleREF3REF; whales, a whaleREF3REF".
Proof. vm_compute. reflexivity. Qed.


(** * More of the script *)

(** ** The corpus and its cache *)

Section Corpus.
Context {L : Library}.

Lemma new_Book_cases (fs : disk) (file : string) :
  (is_Some (fs !! file) ↔ ∃ book, new_Book fs file = Ok book)
  ∧ (∀ e, new_Book fs file = Raise e →
       e = FileNotFoundError file ∧ fs !! file = None).
Proof.
  unfold new_Book, Book_text, decode_cp1252.
  destruct (fs !! file) as [bytes|]; simpl.
  - destruct (str_forallb cp1252_assigned bytes); simpl.
    + split; [split; [by eexists|by eexists]|done].
    + split; [split; [by eexists|by eexists]|done].
  - split; [|by intros e [= <-]].
    split; [by intros [? ?]|by intros [? ?]].
Qed.

(** The corpus is read when every path is on the disk, and then has one
    book for each path, in the order of the paths, named by the last part
    of its path. *)
Theorem new_Books_of_files (fs : disk) (files : list string) :
  (∀ file, file ∈ files → is_Some (fs !! file)) →
  ∃ books, new_Books fs files = Ok books
    ∧ fullpath <$> books = files
    ∧ filename <$> books = basename <$> files.
Proof.
  induction files as [|file files IH]; intros Hall; [by exists []|].
  destruct (proj1 (proj1 (new_Book_cases fs file)))
    as [book Hbook]; [apply Hall; by left|].
  destruct IH as (books & Hbooks & Hpaths & Hnames);
    [intros f Hf; apply Hall; by right|].
  assert (fullpath book = file ∧ filename book = basename file) as [Hpath Hname].
  { unfold new_Book in Hbook.
    destruct (match Book_text fs file with
              | Raise UnicodeDecodeError => Ok EmptyString
              | r => r
              end); simpl in Hbook; [|done].
    by injection Hbook as <-. }
  exists (book :: books). split; [simpl; by rewrite Hbook, Hbooks|].
  by rewrite !fmap_cons, Hpaths, Hnames, Hpath, Hname.
Qed.

(** One path that is not on the disk stops the reading of the corpus. *)
Theorem new_Books_missing_file (fs : disk) (files : list string) (file : string) :
  file ∈ files → fs !! file = None →
  ∃ missing, new_Books fs files = Raise (FileNotFoundError missing)
    ∧ missing ∈ files ∧ fs !! missing = None.
Proof.
  intros Hin Hnone. induction files as [|f files IH]; [by apply elem_of_nil in Hin|].
  simpl. destruct (new_Book fs f) as [book|e] eqn:Hf; simpl.
  - apply elem_of_cons in Hin as [->|Hin].
    + assert (is_Some (fs !! f)) as [? ?]
        by (apply (new_Book_cases fs f); by eexists).
      congruence.
    + destruct (IH Hin) as (m & -> & Hm & Hmn). exists m. simpl.
      split; [done|]. split; [by right|done].
  - destruct (proj2 (new_Book_cases fs f) e Hf) as [-> Hfn].
    exists f. split; [done|]. split; [by left|done].
Qed.

(** The cache round trip: the corpus a run with the cache switched on has
    read from the disk and saved is, when it is not empty, the corpus of
    every later run with the cache switched on, whatever the disk, the
    file pattern, the number of books and the random generator then are;
    the later run leaves the cache file and the generator as they are. *)
Theorem cache_round_trip (fs : disk) (r r' : Rng) (inspec : string)
    (total_books : Z) (books cache' : list Book) :
  read_books fs None r inspec total_books true = Ok (books, Some cache', r') →
  books ≠ [] →
  cache' = books
  ∧ ∀ (fs2 : disk) (r2 : Rng) (inspec2 : string) (total_books2 : Z),
      read_books fs2 (Some cache') r2 inspec2 total_books2 true
      = Ok (books, Some cache', r2).
Proof.
  unfold read_books. simpl.
  destruct (if (0 <? total_books)%Z then _ else _) as [r1 files].
  destruct (new_Books fs files) as [bs|]; simpl; [|done].
  intros [= <- <- <-] Hne. split; [done|].
  intros fs2 r2 inspec2 total_books2. by destruct bs.
Qed.

(** Without the cache switched on, the cache file is neither read nor
    written. *)
Theorem no_cache_no_cache_file (fs : disk) (cache_file cache_file2 : option (list Book))
    (r r' : Rng) (inspec : string) (total_books : Z) (books : list Book)
    (cache' : option (list Book)) :
  read_books fs cache_file r inspec total_books false = Ok (books, cache', r') →
  cache' = cache_file
  ∧ read_books fs cache_file2 r inspec total_books false = Ok (books, cache_file2, r').
Proof.
  unfold read_books. simpl.
  destruct (if (0 <? total_books)%Z then _ else _) as [r1 files].
  destruct (new_Books fs files) as [bs|]; simpl; [|done].
  by intros [= <- <- <-].
Qed.

End Corpus.

(** ** File names *)

Lemma rev_app_app (s t : string) :
  String.rev_app s t = String.rev_app s EmptyString +:+ t.
Proof.
  revert t. induction s as [|c s IH]; intros t; [done|]. simpl.
  rewrite (IH (String c t)), (IH (String c EmptyString)).
  by rewrite str_app_assoc.
Qed.

Lemma rev_cons (c : ascii) (s : string) :
  String.rev (String c s) = String.rev s +:+ String c EmptyString.
Proof. unfold String.rev. simpl. apply rev_app_app. Qed.

Lemma str_existsb_app (p : ascii → bool) (s t : string) :
  str_existsb p (s +:+ t) = str_existsb p s || str_existsb p t.
Proof.
  induction s as [|c s IH]; [done|]. rewrite str_app_cons. simpl.
  by rewrite IH, orb_assoc.
Qed.

Lemma str_existsb_rev (p : ascii → bool) (s : string) :
  str_existsb p (String.rev s) = str_existsb p s.
Proof.
  induction s as [|c s IH]; [done|].
  rewrite rev_cons, str_existsb_app, IH. simpl. by rewrite orb_false_r, orb_comm.
Qed.

Lemma code_slash (c : ascii) : (code c =? 47) = true → c = "/"%char.
Proof.
  intros Hc%Nat.eqb_eq. rewrite <- (ascii_nat_embedding c). unfold code in Hc.
  by rewrite Hc.
Qed.

(** The path is what was read before, then the last part. *)
Lemma basename_go_spec (s : string) :
  ∀ cur, has_slash cur = false →
    has_slash (basename_go cur s) = false
    ∧ ∃ pre, String.rev cur +:+ s = pre +:+ basename_go cur s
        ∧ (pre = EmptyString ∨ ∃ pre', pre = pre' +:+ "/").
Proof.
  unfold has_slash.
  induction s as [|c s IH]; intros cur Hcur; simpl.
  - rewrite str_existsb_rev. split; [done|]. exists EmptyString.
    split; [by rewrite str_app_nil_r|by left].
  - destruct (code c =? 47) eqn:Hc.
    + apply code_slash in Hc as ->.
      destruct (IH EmptyString eq_refl) as (Hno & pre & Hpre & Hend).
      split; [done|]. change (String.rev EmptyString +:+ s) with s in Hpre.
      exists (String.rev cur +:+ String "/" pre). split.
      * by rewrite str_app_assoc, str_app_cons, <- Hpre.
      * right. destruct Hend as [->|[pre' ->]].
        -- by exists (String.rev cur).
        -- exists (String.rev cur +:+ String "/" pre').
           by rewrite str_app_assoc, str_app_cons.
    + destruct (IH (String c cur)) as (Hno & pre & Hpre & Hend);
        [by simpl; rewrite Hc|].
      split; [done|]. exists pre. split; [|done].
      by rewrite <- Hpre, rev_cons, str_app_snoc.
Qed.

(** The file name of a book has no slash, and the path of the book is this
    name after nothing or after a part that ends with a slash. *)
Theorem Book_filename_is_last_part {L : Library} (fs : disk) (file : string)
    (book : Book) :
  new_Book fs file = Ok book →
  has_slash (filename book) = false
  ∧ ∃ pre, file = pre +:+ filename book
      ∧ (pre = EmptyString ∨ ∃ pre', pre = pre' +:+ "/").
Proof.
  intros Hbook.
  assert (filename book = basename file) as ->.
  { unfold new_Book in Hbook.
    destruct (match Book_text fs file with
              | Raise UnicodeDecodeError => Ok EmptyString
              | r => r
              end); simpl in Hbook; [|done].
    by injection Hbook as <-. }
  apply (basename_go_spec file EmptyString eq_refl).
Qed.

(** ** More about the loop *)

Section Loop.
Context {L : Library}.

(** Citations go by file name: in a run that ends well, two citations have
    the same number exactly when their books have the same file name, be
    they in different directories. *)
Theorem same_number_iff_same_file_name (text : string) (books0 : list Book)
    (r : Rng) (ws : list string) (st : state)
    (w1 w2 : string) (b1 b2 : Book) (n1 n2 : nat) :
  citify ws (init_state text books0 r) = Ok st →
  (w1, b1, n1) ∈ history st → (w2, b2, n2) ∈ history st →
  n1 = n2 ↔ filename b1 = filename b2.
Proof.
  intros Hrun Hin1 Hin2.
  pose proof (citify_cites_inv text ws _ _ (init_cites_inv text books0 r) Hrun)
    as [Hnd _ Hhist _].
  destruct (Hhist _ _ _ Hin1) as (_ & _ & _ & Hn1 & Hl1).
  destruct (Hhist _ _ _ Hin2) as (_ & _ & _ & Hn2 & Hl2).
  split.
  - intros ->. congruence.
  - intros Heq. rewrite Heq in Hl1.
    assert (n1 - 1 = n2 - 1) by (eapply NoDup_lookup; done). lia.
Qed.

Lemma citify_word_total (st : state) (w : string) :
  plain w = true ∨ has_star w = true → ∃ st', citify_word st w = Ok st'.
Proof.
  intros Hw. unfold citify_word. case_bool_decide; [by eexists|].
  destruct (has_star w) eqn:Hstar; [by eexists|].
  destruct Hw as [Hplain|?]; [|done].
  destruct (shuffle (rng st) (books st)) as [rng' books'].
  destruct (first_with w books') as [b|]; [|by eexists].
  destruct (list_index_elem (filename b) (add_cite (filename b) (cite_filenames st)))
    as [i ->]; [apply add_cite_elem|]. simpl.
  unfold sub_word. rewrite Hplain. simpl. by eexists.
Qed.

Lemma citify_ends_well (ws : list string) (st : state) :
  Forall (fun w => plain w = true ∨ has_star w = true) ws →
  ∃ st', citify ws st = Ok st'.
Proof.
  intros Hws. revert st. induction Hws as [|w ws Hw _ IH]; intros st; [by eexists|].
  destruct (citify_word_total st w Hw) as [st1 Hstep].
  destruct (IH st1) as [st' Hrest]. exists st'.
  unfold citify in *. simpl. by rewrite Hstep.
Qed.

(** The loop ends well on words that have no metacharacter of regular
    expressions or have a star: [index] finds the file name it looks for,
    and [re.sub] gets a pattern it can compile. *)
Theorem citify_total (ws : list string) (st : state) :
  Forall (fun w => plain w = true ∨ has_star w = true) ws →
  ∃ st', citify ws st = Ok st'.
Proof. apply citify_ends_well. Qed.

Lemma citify_word_Raise (st : state) (w : string) (e : exn) :
  citify_word st w = Raise e →
  plain w = false ∧ has_star w = false
  ∧ ∃ n, re_sub_py ("\b(" +:+ w +:+ ")\b") ("\1REF" +:+ str_of_nat n +:+ "REF")
           (book1_text st) = Raise e.
Proof.
  unfold citify_word. case_bool_decide; [done|].
  destruct (has_star w) eqn:Hstar; [done|].
  destruct (shuffle (rng st) (books st)) as [rng' books'].
  destruct (first_with w books') as [b|]; [|done].
  destruct (list_index_elem (filename b) (add_cite (filename b) (cite_filenames st)))
    as [i ->]; [apply add_cite_elem|]. simpl.
  unfold sub_word. destruct (plain w); simpl; [done|].
  destruct (re_sub_py _ _ _) as [t|e'] eqn:Hre; simpl; [done|].
  intros [= <-]. split_and!; try done. by exists (i + 1).
Qed.

(** What the loop raises, [re.sub] has raised: on a word of the list that
    has a metacharacter and no star, for the pattern and the template of
    line 216. *)
Theorem citify_raises_what_re_raises (ws : list string) (st : state) (e : exn) :
  citify ws st = Raise e →
  ∃ w n text, w ∈ ws ∧ plain w = false ∧ has_star w = false
    ∧ re_sub_py ("\b(" +:+ w +:+ ")\b") ("\1REF" +:+ str_of_nat n +:+ "REF") text
      = Raise e.
Proof.
  revert st. induction ws as [|w ws IH]; intros st; [done|].
  unfold citify in *. simpl.
  destruct (citify_word st w) as [st1|e'] eqn:Hstep; simpl.
  - intros (w' & n & t & Hin & ?)%IH. exists w', n, t. split; [by right|done].
  - intros [= ->]. destruct (citify_word_Raise _ _ _ Hstep) as (? & ? & n & ?).
    exists w, n, (book1_text st). split; [by left|done].
Qed.

(** With no book in the corpus the loop cites nothing and leaves the text
    as it is. *)
Lemma citify_no_books (ws : list string) (st : state) :
  shuffle_permutes L → books st = [] →
  ∃ st', citify ws st = Ok st'
    ∧ books st' = [] ∧ cite_filenames st' = cite_filenames st
    ∧ book1_text st' = book1_text st.
Proof.
  intros Hperm. revert st. induction ws as [|w ws IH]; intros st Hnil; [by exists st|].
  assert (∃ st1, citify_word st w = Ok st1 ∧ books st1 = []
            ∧ cite_filenames st1 = cite_filenames st
            ∧ book1_text st1 = book1_text st) as (st1 & Hstep & Hb & Hc & Ht).
  { unfold citify_word. case_bool_decide; [by exists st|].
    destruct (has_star w); [by exists st|].
    pose proof (Hperm (rng st) (books st)) as Hp.
    destruct (shuffle (rng st) (books st)) as [rng' books']. simpl in Hp.
    rewrite Hnil in Hp. apply Permutation_nil_r in Hp.
    rewrite Hp. simpl. by eexists. }
  destruct (IH st1 Hb) as (st' & Hrest & Hb' & Hc' & Ht'). exists st'.
  unfold citify in *. simpl. rewrite Hstep. simpl.
  split; [done|]. split; [done|]. split; congruence.
Qed.

Lemma render_nil_raises (metadata : metadata_t) (book1_filename text : string) :
  ∃ e, render metadata book1_filename text [] = Raise e.
Proof.
  unfold render.
  destruct (getitem metadata book1_filename "Title"); simpl; [|by eexists].
  destruct (getitem metadata book1_filename "Author-FN"); simpl; [|by eexists].
  destruct (str_strip _); simpl; [|by eexists].
  destruct (getitem metadata book1_filename "Author-LN"); simpl; [|by eexists].
  destruct (str_strip _); simpl; [|by eexists].
  by eexists.
Qed.

(** A run whose corpus is empty writes no page: [main] ends with an
    exception. *)
Theorem main_empty_corpus (Hperm : shuffle_permutes L)
    (fs : disk) (cache_file cache' : option (list Book)) (metadata : metadata_t)
    (r r' : Rng) (infile1 inspec : string) (total_books : Z) (use_cache : bool) :
  read_books fs cache_file r inspec total_books use_cache = Ok ([], cache', r') →
  ∃ e, main fs cache_file metadata r infile1 inspec total_books use_cache = Raise e.
Proof.
  intros Hread. unfold main.
  destruct (new_Book fs infile1) as [book1|]; simpl; [|by eexists].
  rewrite Hread. simpl.
  destruct (Book_text fs (fullpath book1)) as [text|]; simpl; [|by eexists].
  destruct (citify_no_books (list_of_set (set book1)) (init_state text [] r') Hperm eq_refl)
    as (st & -> & _ & Hc & _). simpl in *. rewrite Hc.
  destruct (render_nil_raises metadata (filename book1) (book1_text st)) as [e ->].
  by eexists.
Qed.

(** The primary book is read twice. When its bytes do not decode, the
    first reading, in [Book.__init__], gives an empty bag of words, and the
    second, on line 188, ends [main] with a [UnicodeDecodeError], once the
    corpus has been read. *)
Theorem main_undecodable_primary
    (fs : disk) (cache_file : option (list Book)) (metadata : metadata_t)
    (r : Rng) (infile1 inspec bytes : string) (total_books : Z) (use_cache : bool)
    (corpus : list Book * option (list Book) * Rng) :
  fs !! infile1 = Some bytes →
  decode_cp1252 bytes = Raise UnicodeDecodeError →
  read_books fs cache_file r inspec total_books use_cache = Ok corpus →
  main fs cache_file metadata r infile1 inspec total_books use_cache
  = Raise UnicodeDecodeError.
Proof.
  intros Hfile Hdec Hread. unfold main, new_Book, Book_text.
  rewrite Hfile, Hdec. simpl. rewrite Hread. simpl.
  destruct corpus as [[books cache'] r']. unfold Book_text. simpl.
  by rewrite Hfile, Hdec.
Qed.

End Loop.

(** ** The metadata *)

Lemma load_rows_lookup (reader : list (gmap string (option string))) :
  ∀ (acc md : metadata_t) (k : string),
    py_for load_row reader acc = Ok md → k ≠ EmptyString →
    md !! k = match last (rows_of k reader) with
              | Some row => Some (delete "Text" row)
              | None => acc !! k
              end.
Proof.
  induction reader as [|row reader IH]; intros acc md k; simpl.
  - by intros [= <-].
  - destruct (load_row acc row) as [acc'|] eqn:Hrow; simpl; [|done].
    intros Hrest Hk. rewrite (IH _ _ _ Hrest Hk).
    unfold rows_of. unfold load_row in Hrow.
    destruct (row !! "Text") as [[k'|]|] eqn:Htext; [| |done].
    + case_bool_decide as Hk'; injection Hrow as <-.
      * rewrite filter_cons_False by (rewrite Htext; intros [= <-]; done). done.
      * destruct (decide (k' = k)) as [->|Hne].
        -- rewrite filter_cons_True by done.
           destruct (filter _ reader) as [|row' rows'] eqn:Hf.
           ++ simpl. by rewrite lookup_insert_eq.
           ++ rewrite last_cons_cons.
              destruct (last (row' :: rows')) eqn:Hl; [done|].
              by apply last_None in Hl.
        -- rewrite filter_cons_False by (rewrite Htext; intros [= ?]; done).
           by rewrite lookup_insert_ne.
    + injection Hrow as <-.
      by rewrite filter_cons_False by (rewrite Htext; done).
Qed.

(** Of the rows with the same [Text] the last one is kept, without its
    [Text]; a file name that no row has is not in the metadata. *)
Theorem load_metadata_last_row_wins (reader : list (gmap string (option string)))
    (metadata : metadata_t) (k : string) :
  load_metadata reader = Ok metadata → k ≠ EmptyString →
  metadata !! k = delete "Text" <$> last (rows_of k reader).
Proof.
  intros Hload Hk. rewrite (load_rows_lookup _ _ _ _ Hload Hk).
  by destruct (last (rows_of k reader)).
Qed.

Lemma load_rows_keys (reader : list (gmap string (option string))) :
  ∀ (acc md : metadata_t),
    py_for load_row reader acc = Ok md →
    acc !! EmptyString = None →
    (∀ id row, acc !! id = Some row → row !! "Text" = None) →
    md !! EmptyString = None
    ∧ ∀ id row, md !! id = Some row → row !! "Text" = None.
Proof.
  induction reader as [|row reader IH]; intros acc md; simpl.
  - by intros [= <-].
  - destruct (load_row acc row) as [acc'|] eqn:Hrow; simpl; [|done].
    intros Hrest Hempty Htext. apply (IH _ _ Hrest).
    + unfold load_row in Hrow.
      destruct (row !! "Text") as [[k'|]|]; [| |done].
      * case_bool_decide; injection Hrow as <-; [done|].
        by rewrite lookup_insert_ne.
      * by injection Hrow as <-.
    + unfold load_row in Hrow.
      destruct (row !! "Text") as [[k'|]|]; [| |done].
      * case_bool_decide; injection Hrow as <-; [done|].
        intros id r. destruct (decide (k' = id)) as [->|].
        -- rewrite lookup_insert_eq. intros [= <-]. apply lookup_delete_eq.
        -- rewrite lookup_insert_ne by done. apply Htext.
      * by injection Hrow as <-.
Qed.

(** The metadata have no row for the empty file name, and no row of theirs
    has a field [Text]. *)
Theorem load_metadata_keys (reader : list (gmap string (option string)))
    (metadata : metadata_t) :
  load_metadata reader = Ok metadata →
  metadata !! EmptyString = None
  ∧ ∀ id row, metadata !! id = Some row → row !! "Text" = None.
Proof.
  intros Hload. apply (load_rows_keys _ _ _ Hload); [done|].
  intros id row. by rewrite lookup_empty.
Qed.

(** [load_metadata] ends well exactly when every row has a field [Text],
    and raises the [KeyError] of [Text] otherwise. *)
Theorem load_metadata_needs_Text (reader : list (gmap string (option string))) :
  (Forall (fun row => is_Some (row !! "Text")) reader
   → ∃ metadata, load_metadata reader = Ok metadata)
  ∧ (¬ Forall (fun row => is_Some (row !! "Text")) reader
     → load_metadata reader = Raise (KeyError "Text")).
Proof.
  unfold load_metadata. generalize (∅ : metadata_t).
  induction reader as [|row reader IH]; intros acc.
  - split; [by eexists|]. intros Hnot. destruct Hnot. constructor.
  - simpl. unfold load_row at 1 3.
    destruct (row !! "Text") as [key|] eqn:Htext.
    + assert (∃ acc', (match key with
                       | Some k => if bool_decide (k = EmptyString) then Ok acc
                                   else Ok (<[k := delete "Text" row]> acc)
                       | None => Ok acc
                       end) = Ok acc') as [acc' ->].
      { destruct key as [k|]; [case_bool_decide|]; by eexists. }
      simpl. destruct (IH acc') as [IH1 IH2]. split.
      * intros [_ Hall]%Forall_cons. by apply IH1.
      * intros Hnot. apply IH2. intros Hall. apply Hnot. constructor; [by eexists|done].
    + simpl. split; [|done].
      intros [[? ?] _]%Forall_cons. congruence.
Qed.

(** ** More about the reference list and the page *)

Lemma except_KeyError_cases (body : py string) (handler id : string) :
  (∀ e, body = Raise e → (∃ k, e = KeyError k) ∨ e = AttributeError ∨ e = TypeError) →
  (∃ r, except_KeyError body handler id = Ok r)
  ∨ except_KeyError body handler id = Raise AttributeError
  ∨ except_KeyError body handler id = Raise TypeError.
Proof.
  intros Hbody. destruct body as [v|e]; [left; by eexists|].
  destruct (Hbody e eq_refl) as [[k ->]|[->| ->]]; simpl; [left; by eexists|auto..].
Qed.

Lemma getitem_Raise (metadata : metadata_t) (id field : string) (e : exn) :
  getitem metadata id field = Raise e → ∃ k, e = KeyError k.
Proof.
  unfold getitem. destruct (metadata !! id) as [row|]; [|intros [= <-]; by eexists].
  destruct (row !! field); [done|intros [= <-]; by eexists].
Qed.

Lemma str_strip_Raise (v : option string) (e : exn) :
  str_strip v = Raise e → e = AttributeError.
Proof. destruct v; [done|by intros [= <-]]. Qed.

Lemma cite_author_Raise (metadata : metadata_t) (id : string) (e : exn) :
  cite_author metadata id = Raise e →
  (∃ k, e = KeyError k) ∨ e = AttributeError ∨ e = TypeError.
Proof.
  unfold cite_author.
  destruct (getitem metadata id "Author-LN") as [ln|e1] eqn:H1; simpl;
    [|intros [= <-]; left; by eapply getitem_Raise].
  destruct (str_strip ln) as [a|e2] eqn:H2; simpl;
    [|intros [= <-]; right; left; by eapply str_strip_Raise].
  destruct (getitem metadata id "Author-FN") as [fn|e3] eqn:H3; simpl;
    [|intros [= <-]; left; by eapply getitem_Raise].
  destruct (truthy fn); [|done].
  destruct (str_strip fn) as [f|e4] eqn:H4; simpl;
    [done|intros [= <-]; right; left; by eapply str_strip_Raise].
Qed.

Lemma cite_title_Raise (metadata : metadata_t) (id : string) (e : exn) :
  cite_title metadata id = Raise e →
  (∃ k, e = KeyError k) ∨ e = AttributeError ∨ e = TypeError.
Proof.
  unfold cite_title.
  destruct (getitem metadata id "Title") as [t|e1] eqn:H1; simpl;
    [|intros [= <-]; left; by eapply getitem_Raise].
  destruct (getitem metadata id "Subtitle") as [su|e3] eqn:H3; simpl;
    [|intros [= <-]; left; by eapply getitem_Raise].
  destruct (truthy su); [|done].
  destruct (str_strip su) as [f|e4] eqn:H4; simpl;
    [|intros [= <-]; right; left; by eapply str_strip_Raise].
  destruct t; [done|intros [= <-]; auto].
Qed.

Lemma make_cite_cases (metadata : metadata_t) (i : nat) (id : string) :
  (∃ r, make_cite metadata i id = Ok r)
  ∨ make_cite metadata i id = Raise AttributeError
  ∨ make_cite metadata i id = Raise TypeError.
Proof.
  unfold make_cite.
  destruct (except_KeyError_cases (cite_author metadata id) "[Unknown author]" id
              (cite_author_Raise metadata id)) as [[[a p1] ->]|[->| ->]];
    simpl; [|auto..].
  destruct (except_KeyError_cases (cite_title metadata id) ("[" +:+ id +:+ "]") id
              (cite_title_Raise metadata id)) as [[[t p2] ->]|[->| ->]];
    simpl; [left; by eexists|auto..].
Qed.

(** [make_cites] builds the list or raises on a field that is [None]: an
    [AttributeError] from [strip], a [TypeError] from [+=].  It lets no
    [KeyError] out. *)
Theorem make_cites_raises_on_None_only (cite_filenames : list string)
    (metadata : metadata_t) :
  (∃ r, make_cites cite_filenames metadata = Ok r)
  ∨ make_cites cite_filenames metadata = Raise AttributeError
  ∨ make_cites cite_filenames metadata = Raise TypeError.
Proof.
  unfold make_cites. generalize 0.
  induction cite_filenames as [|id ids IH]; intros i; simpl; [left; by eexists|].
  destruct (make_cite_cases metadata i id) as [[[entry p] ->]|[->| ->]]; simpl; [|auto..].
  destruct (IH (S i)) as [[[out ps] ->]|[->| ->]]; simpl; [left; by eexists|auto..].
Qed.

(** A row without a field [Subtitle] loses its title: the second [try]
    covers both lookups, so the entry has the title [[name]] and the name
    is printed, whatever the field [Title] holds. *)
Theorem no_Subtitle_no_title (metadata : metadata_t) (i : nat) (id author : string)
    (row : gmap string (option string)) (p1 : list string) :
  metadata !! id = Some row →
  is_Some (row !! "Title") → row !! "Subtitle" = None →
  except_KeyError (cite_author metadata id) "[Unknown author]" id = Ok (author, p1) →
  make_cite metadata i id
  = Ok ("<r>" +:+ str_of_nat (i + 1) +:+ "</r> " +:+ author +:+ ", <i>"
          +:+ ("[" +:+ id +:+ "]") +:+ "</i>", (p1 ++ [id])%list).
Proof.
  intros Hrow [t Ht] Hsub Hauthor. unfold make_cite. rewrite Hauthor. simpl.
  unfold cite_title, getitem. by rewrite Hrow, Ht, Hsub.
Qed.

Lemma filled_lookup (metadata : metadata_t) (id k : string)
    (row : gmap string (option string)) (v : option string) :
  filled metadata → metadata !! id = Some row → row !! k = Some v → is_Some v.
Proof.
  intros Hfilled Hrow Hv.
  exact (map_Forall_lookup_1 _ _ _ _ (map_Forall_lookup_1 _ _ _ _ Hfilled Hrow) Hv).
Qed.

Lemma getitem_filled (metadata : metadata_t) (id field : string) :
  filled metadata →
  (∃ s, getitem metadata id field = Ok (Some s))
  ∨ (∃ k, getitem metadata id field = Raise (KeyError k)).
Proof.
  intros Hfilled. unfold getitem.
  destruct (metadata !! id) as [row|] eqn:Hrow; [|right; by eexists].
  destruct (row !! field) as [v|] eqn:Hv; [|right; by eexists].
  destruct (filled_lookup _ _ _ _ _ Hfilled Hrow Hv) as [s ->]. left. by eexists.
Qed.

Lemma make_cite_filled (metadata : metadata_t) (i : nat) (id : string) :
  filled metadata → ∃ entry p, make_cite metadata i id = Ok (entry, p).
Proof.
  intros Hfilled. unfold make_cite.
  assert (∃ a p, except_KeyError (cite_author metadata id) "[Unknown author]" id
                 = Ok (a, p)) as (a & p1 & ->).
  { unfold cite_author.
    destruct (getitem_filled metadata id "Author-LN" Hfilled) as [[ln ->]|[k ->]];
      simpl; [|by eexists _, _].
    destruct (getitem_filled metadata id "Author-FN" Hfilled) as [[fn ->]|[k ->]];
      simpl; [|by eexists _, _].
    destruct fn; simpl; by eexists _, _. }
  assert (∃ t p, except_KeyError (cite_title metadata id) ("[" +:+ id +:+ "]") id
                 = Ok (t, p)) as (t & p2 & ->).
  { unfold cite_title.
    destruct (getitem_filled metadata id "Title" Hfilled) as [[ti ->]|[k ->]];
      simpl; [|by eexists _, _].
    destruct (getitem_filled metadata id "Subtitle" Hfilled) as [[su ->]|[k ->]];
      simpl; [|by eexists _, _].
    destruct su; simpl; by eexists _, _. }
  simpl. by eexists _, _.
Qed.

Lemma make_cites_Ok (cite_filenames : list string) (metadata : metadata_t) :
  filled metadata →
  ∃ entries printed, make_cites cite_filenames metadata = Ok (entries, printed)
    ∧ length entries = length cite_filenames.
Proof.
  intros Hfilled. unfold make_cites. generalize 0.
  induction cite_filenames as [|id ids IH]; intros i; simpl; [by exists [], []|].
  destruct (make_cite_filled metadata i id Hfilled) as (entry & p & ->). simpl.
  destruct (IH (S i)) as (out & ps & -> & Hlen). simpl.
  eexists _, _. split; [done|]. simpl. by rewrite Hlen.
Qed.

(** On metadata without [None], [make_cites] builds the whole reference
    list, one entry for each file name. *)
Theorem make_cites_filled (cite_filenames : list string) (metadata : metadata_t) :
  filled metadata →
  ∃ entries printed, make_cites cite_filenames metadata = Ok (entries, printed)
    ∧ length entries = length cite_filenames.
Proof. apply make_cites_Ok. Qed.

Lemma get_coauthors_go_spec (metadata : metadata_t) (ids : list string) :
  ∀ (acc out : gset string),
    get_coauthors_go metadata ids acc = Ok out →
    acc ⊆ out ∧ size out ≤ size acc + length ids
    ∧ (ids ≠ [] → out ≠ ∅)
    ∧ ∀ id, id ∈ ids → ∃ a, coauthor metadata id = Ok a ∧ a ∈ out.
Proof.
  induction ids as [|id ids IH]; intros acc out; simpl.
  - intros [= <-]. split_and!; [done|lia|done|]. by intros id ?%elem_of_nil.
  - destruct (coauthor metadata id) as [a|] eqn:Ha; simpl; [|done].
    intros Hrest. destruct (IH _ _ Hrest) as (Hsub & Hsize & _ & Hall).
    split_and!.
    + etrans; [|exact Hsub]. apply union_subseteq_l.
    + assert (size ({[a]} ∖ acc : gset string) ≤ size ({[a]} : gset string)) as H1
        by (apply subseteq_size, subseteq_difference_l; reflexivity).
      rewrite size_singleton in H1. rewrite size_union_alt in Hsize. simpl. lia.
    + intros _ Hempty. rewrite Hempty in Hsub.
      apply (not_elem_of_empty (C := gset string) a), Hsub, elem_of_union.
      right. by apply elem_of_singleton.
    + intros id' [->|Hin]%elem_of_cons.
      * exists a. split; [done|]. apply Hsub, elem_of_union.
        right. by apply elem_of_singleton.
      * by apply Hall.
Qed.

Lemma get_coauthors_Ok (cite_filenames : list string) (metadata : metadata_t)
    (coauthors : list string) :
  get_coauthors cite_filenames metadata = Ok coauthors →
  NoDup coauthors
  ∧ length coauthors ≤ length cite_filenames
  ∧ (cite_filenames ≠ [] → coauthors ≠ [])
  ∧ ∀ id, id ∈ cite_filenames →
      ∃ a, coauthor metadata id = Ok a ∧ a ∈ coauthors.
Proof.
  unfold get_coauthors.
  destruct (get_coauthors_go metadata cite_filenames ∅) as [out|] eqn:Hgo; simpl;
    [|done].
  intros [= <-]. destruct (get_coauthors_go_spec _ _ _ _ Hgo) as (_ & Hsize & Hne & Hall).
  split_and!.
  - apply NoDup_elements.
  - rewrite size_empty in Hsize. exact Hsize.
  - intros Hids Hnil. apply (Hne Hids).
    apply leibniz_equiv, elements_empty_inv. by rewrite Hnil.
  - intros id Hid. destruct (Hall id Hid) as (a & ? & ?). exists a.
    split; [done|]. by apply elem_of_elements.
Qed.

(** The list of the co-authors has no name twice, has at most one name for
    each file name cited, has the name found for each of them, and is not
    empty unless the citation list is. *)
Theorem get_coauthors_spec (cite_filenames : list string) (metadata : metadata_t)
    (coauthors : list string) :
  get_coauthors cite_filenames metadata = Ok coauthors →
  NoDup coauthors
  ∧ length coauthors ≤ length cite_filenames
  ∧ (cite_filenames ≠ [] → coauthors ≠ [])
  ∧ ∀ id, id ∈ cite_filenames →
      ∃ a, coauthor metadata id = Ok a ∧ a ∈ coauthors.
Proof. apply get_coauthors_Ok. Qed.

Lemma coauthor_filled (metadata : metadata_t) (id : string) :
  filled metadata → ∃ a, coauthor metadata id = Ok a.
Proof.
  intros Hfilled. unfold coauthor.
  destruct (getitem_filled metadata id "Author-FN" Hfilled) as [[fn ->]|[k ->]];
    simpl; [|by eexists].
  destruct (getitem_filled metadata id "Author-LN" Hfilled) as [[ln Hln]|[k Hln]].
  - destruct fn; simpl; rewrite Hln; simpl; by eexists.
  - destruct fn; simpl; rewrite Hln; simpl; by eexists.
Qed.

Lemma get_coauthors_filled (cite_filenames : list string) (metadata : metadata_t) :
  filled metadata → ∃ coauthors, get_coauthors cite_filenames metadata = Ok coauthors.
Proof.
  intros Hfilled. unfold get_coauthors.
  assert (∀ acc, ∃ out, get_coauthors_go metadata cite_filenames acc = Ok out) as Hgo.
  { induction cite_filenames as [|id ids IH]; intros acc; simpl; [by eexists|].
    destruct (coauthor_filled metadata id Hfilled) as [a ->]. simpl. apply IH. }
  destruct (Hgo ∅) as [out ->]. simpl. by eexists.
Qed.

Lemma render_Ok (metadata : metadata_t)
    (book1_filename book1_text : string) (cite_filenames : list string) :
  cite_filenames ≠ [] → filled metadata →
  has_title_and_author metadata book1_filename →
  ∃ head cites, render metadata book1_filename book1_text cite_filenames
                = Ok (head +:+ sub_ref book1_text +:+ footer (join nl cites))
    ∧ length cites = length cite_filenames
    ∧ has_raw_marker (sub_ref book1_text) = false.
Proof.
  intros Hne Hfilled (row & Hrow & [t Ht] & [fn Hfn] & [ln Hln]).
  destruct (filled_lookup _ _ _ _ _ Hfilled Hrow Ht) as [t' ->].
  destruct (filled_lookup _ _ _ _ _ Hfilled Hrow Hfn) as [fn' ->].
  destruct (filled_lookup _ _ _ _ _ Hfilled Hrow Hln) as [ln' ->].
  unfold render, getitem. rewrite Hrow, Ht, Hfn, Hln. simpl.
  destruct (get_coauthors_filled cite_filenames metadata Hfilled) as [cs Hcs].
  rewrite Hcs. simpl.
  destruct (make_cites_Ok cite_filenames metadata Hfilled) as (es & ps & -> & Hlen).
  simpl.
  destruct (get_coauthors_Ok _ _ _ Hcs) as (_ & _ & Hcne & _).
  unfold header, getitem_last.
  destruct (last cs) as [c|] eqn:Hlast.
  - simpl. eexists _, es. split; [reflexivity|]. split; [done|].
    apply re_search_sub_go.
  - apply last_None in Hlast. by apply Hcne in Hne.
Qed.

(** The page is written when there is a citation, the metadata have no
    [None], and they have the title and the names of the author of the
    primary book: its body is the text after line 230, between the header
    and the references. *)
Theorem render_writes_the_page (metadata : metadata_t)
    (book1_filename book1_text : string) (cite_filenames : list string) :
  cite_filenames ≠ [] → filled metadata →
  has_title_and_author metadata book1_filename →
  ∃ head cites, render metadata book1_filename book1_text cite_filenames
                = Ok (head +:+ sub_ref book1_text +:+ footer (join nl cites))
    ∧ length cites = length cite_filenames
    ∧ has_raw_marker (sub_ref book1_text) = false.
Proof. apply render_Ok. Qed.

(** ** More about the substitutions *)

(** [re.sub] returns the text it was given when the pattern matches
    nowhere in it. *)
Lemma re_sub_go_no_match (m : matcher) (repl : string → string) (s : string) :
  ∀ prev, re_search_go m prev s = false → re_sub_go m repl 0 prev s = s.
Proof.
  induction s as [|c s IH]; intros prev; [done|]. simpl.
  intros [Hhead Hrest]%orb_false_elim.
  apply bool_decide_eq_false in Hhead.
  destruct (m prev (String c s)) as [k|]; [destruct Hhead; by eexists|].
  by rewrite IH.
Qed.

(** Line 230 done twice is line 230 done once. *)
Theorem sub_ref_idempotent (text : string) : sub_ref (sub_ref text) = sub_ref text.
Proof. apply re_sub_go_no_match, re_search_sub_go. Qed.

Lemma re_sub_go_no_occurrence (m : matcher) (repl : string → string) (s : string) :
  ∀ prev, re_findall_go m 0 prev s = [] → re_sub_go m repl 0 prev s = s.
Proof.
  induction s as [|c s IH]; intros prev; [done|]. simpl.
  destruct (m prev (String c s)) as [[|k]|]; [|done|]; intros H; by rewrite IH.
Qed.

(** A word that occurs nowhere in the text as a whole word, like the two
    halves of [can't], is cited and leaves the text as it is. *)
Theorem sub_word_without_occurrence {L : Library} (word text : string) (n : nat) :
  plain word = true → occurrences word text = [] →
  sub_word word n text = Ok text.
Proof.
  intros Hplain Hocc. unfold sub_word. rewrite Hplain. f_equal.
  by apply re_sub_go_no_occurrence.
Qed.

(** *** How a marker becomes a tag *)

Lemma re_sub_go_ref_prev (s : string) :
  ∀ skip p p', re_sub_go ref_match ref_repl skip p s
               = re_sub_go ref_match ref_repl skip p' s.
Proof.
  induction s as [|c s IH]; intros skip p p'; [done|].
  destruct skip as [|k]; simpl; [|done].
  rewrite (ref_match_prev p p'). reflexivity.
Qed.

Lemma re_sub_go_ref_skip (u b : string) (p : option ascii) :
  re_sub_go ref_match ref_repl (String.length u) p (u +:+ b) = sub_ref b.
Proof.
  revert p. induction u as [|c u IH]; intros p.
  - apply re_sub_go_ref_prev.
  - rewrite str_app_cons. simpl. apply IH.
Qed.

Lemma strip_REF_app_R (a x t : string) :
  a ≠ EmptyString → strip_REF (a +:+ String "R" x) = Some t →
  ∃ t', strip_REF a = Some t'.
Proof.
  intros Ha H%strip_REF_Some.
  destruct a as [|c1 [|c2 [|c3 a]]]; try done.
  injection H as -> -> -> _. by eexists.
Qed.

Lemma span_digits_all (d : string) :
  str_forallb is_digit d = true → span_digits d = (d, EmptyString).
Proof.
  induction d as [|c d IH]; [done|]. simpl.
  intros [Hc Hd]%andb_prop. by rewrite Hc, (IH Hd).
Qed.

Lemma ref_match_marker (p : option ascii) (d b : string) :
  d ≠ EmptyString → str_forallb is_digit d = true →
  ref_match p ("REF" +:+ d +:+ "REF" +:+ b) = Some (6 + String.length d).
Proof.
  intros Hne Hd. unfold ref_match.
  change (strip_REF ("REF" +:+ ?s)) with (Some s). cbv beta iota.
  change ("REF" +:+ b) with (String "R" ("EF" +:+ b)).
  rewrite span_digits_app_stop by done. rewrite (span_digits_all d Hd). simpl.
  destruct d as [|c d]; [done|]. simpl. f_equal. lia.
Qed.

Lemma sub_ref_go_marker_head (p : option ascii) (d b : string) :
  d ≠ EmptyString → str_forallb is_digit d = true →
  re_sub_go ref_match ref_repl 0 p ("REF" +:+ d +:+ "REF" +:+ b)
  = "<r>" +:+ d +:+ "</r>" +:+ sub_ref b.
Proof.
  intros Hne Hd.
  pose proof (ref_match_marker p d b Hne Hd) as Hm.
  change ("REF" +:+ d +:+ "REF" +:+ b)
    with (String "R" ("EF" +:+ d +:+ "REF" +:+ b)) in *.
  cbn [re_sub_go]. rewrite Hm.
  change (6 + String.length d) with (S (5 + String.length d)). cbv iota beta.
  replace (str_take _ _) with ("REF" +:+ d +:+ "REF").
  - rewrite ref_repl_match, !str_app_assoc. do 3 f_equal.
    etrans; [|apply (re_sub_go_ref_skip ("EF" +:+ d +:+ "REF") b (Some "R"%char))].
    f_equal; [rewrite !str_app_length; simpl; lia|by rewrite !str_app_assoc].
  - symmetry. etrans; [|apply (str_take_app ("REF" +:+ d +:+ "REF") b)].
    f_equal; [rewrite !str_app_length; simpl; lia|by rewrite !str_app_assoc].
Qed.

Lemma sub_ref_go_before_marker (a x out : string) :
  (∀ p, re_sub_go ref_match ref_repl 0 p (String "R" x) = out) →
  ∀ p q, re_search_go ref_word_match q a = false →
    re_sub_go ref_match ref_repl 0 p (a +:+ String "R" x) = a +:+ out.
Proof.
  intros Hout. induction a as [|c a IH]; intros p q Ha; [apply Hout|].
  cbn [re_search_go] in Ha. apply orb_false_elim in Ha as [Hhead Hrest].
  apply bool_decide_eq_false in Hhead.
  rewrite (str_app_cons c a (String "R" x)). cbn [re_sub_go].
  assert (ref_match p (String c (a +:+ String "R" x)) = None) as ->.
  { unfold ref_match.
    destruct (strip_REF (String c (a +:+ String "R" x))) as [t|] eqn:Ht; [|done].
    exfalso. apply Hhead. unfold ref_word_match.
    rewrite <- (str_app_cons c a (String "R" x)) in Ht.
    apply strip_REF_app_R in Ht as [t' ->]; [by eexists|done]. }
  rewrite str_app_cons. f_equal. by apply (IH _ (Some c)).
Qed.

(** In a text that has no [REF] before it, a marker is replaced by its tag,
    and line 230 goes on after the marker. *)
Theorem sub_ref_renders_marker (a d b : string) :
  has_REF a = false → d ≠ EmptyString → str_forallb is_digit d = true →
  sub_ref (a +:+ "REF" +:+ d +:+ "REF" +:+ b)
  = a +:+ "<r>" +:+ d +:+ "</r>" +:+ sub_ref b.
Proof.
  intros Ha Hne Hd.
  apply (sub_ref_go_before_marker a ("EF" +:+ d +:+ "REF" +:+ b) _
           (fun p => sub_ref_go_marker_head p d b Hne Hd) None None Ha).
Qed.

(** ** The whole run *)

(** When [main] writes the page.  The primary book and the corpus are
    read; every word of the primary book is plain or has a star; one word
    without a star is in a book of the corpus; the metadata have no [None]
    and have the title and the author of the primary book.  Then [main]
    returns a page, and the cache file is as the reading of the corpus
    left it. *)
Theorem main_writes_a_page {L : Library}
    (Hperm : shuffle_permutes L) (Hlist : list_of_set_lists L)
    (fs : disk) (cache_file cache' : option (list Book)) (metadata : metadata_t)
    (r r' : Rng) (infile1 inspec text : string) (total_books : Z) (use_cache : bool)
    (book1 : Book) (books0 : list Book) (W : string) (b : Book) :
  new_Book fs infile1 = Ok book1 →
  Book_text fs infile1 = Ok text →
  read_books fs cache_file r inspec total_books use_cache = Ok (books0, cache', r') →
  (∀ w, w ∈ set book1 → plain w = true ∨ has_star w = true) →
  W ∈ set book1 → has_star W = false → b ∈ books0 → W ∈ set b →
  filled metadata → has_title_and_author metadata (filename book1) →
  ∃ page, main fs cache_file metadata r infile1 inspec total_books use_cache
          = Ok (page, cache').
Proof.
  intros Hbook Htext Hread Hplain HW Hstar Hb HWb Hfilled Hprimary.
  pose proof (Hlist (set book1)) as Hws.
  assert (fullpath book1 = infile1) as Hpath.
  { unfold new_Book in Hbook.
    destruct (match Book_text fs infile1 with
              | Raise UnicodeDecodeError => Ok EmptyString
              | r => r
              end); simpl in Hbook; [|done].
    by injection Hbook as <-. }
  unfold main. rewrite Hbook. simpl. rewrite Hread. simpl. rewrite Hpath, Htext. simpl.
  destruct (citify_ends_well (list_of_set (set book1)) (init_state text books0 r'))
    as [st Hrun].
  { apply Forall_forall. intros w Hw. apply Hplain, Hws, Hw. }
  rewrite Hrun. simpl.
  assert (cite_filenames st ≠ []) as Hcited.
  { pose proof (lists_set_lowercase _ _ _ _ Hbook Hws) as Hlow.
    pose proof (citify_cites_inv text _ _ _ (init_cites_inv text books0 r') Hrun) as Hinv.
    assert (lower W = W) as HlW by by apply (new_Book_lowercase _ _ _ Hbook).
    destruct (citify_entries_self books0 _ _ _ W Hperm (reflexivity _) Hlow (proj1 Hws)
                (fresh_init _ _ _ _) Hrun (proj2 (proj2 Hws W) HW) Hstar)
      as [[Hnone _]|(b' & n & _ & _ & Hent)].
    - exfalso. apply (Hnone b Hb). by rewrite HlW.
    - assert ((W, b', n) ∈ history st) as Hin
        by (apply entries_of_elem; rewrite Hent; apply elem_of_app; right; by left).
      destruct (inv_history _ _ Hinv _ _ _ Hin) as (_ & _ & _ & _ & Hlook).
      intros Hnil. by rewrite Hnil in Hlook. }
  destruct (render_Ok metadata (filename book1) (book1_text st)
              (cite_filenames st) Hcited Hfilled Hprimary) as (head & cites & -> & _).
  simpl. by eexists.
Qed.

(** ** The small library keeps the laws *)

Lemma demo_shuffle_permutes : shuffle_permutes demo_library.
Proof.
  intros r l. simpl. unfold rotate.
  rewrite Permutation_app_comm. by rewrite take_drop.
Qed.

Lemma demo_words_of_empty : words_of_empty demo_library.
Proof. reflexivity. Qed.

Lemma demo_list_of_set_lists : list_of_set_lists demo_library.
Proof.
  intros s. split; [apply NoDup_elements|]. intros w. apply elem_of_elements.
Qed.

Lemma demo_lists_set (s : gset string) :
  lists_set (list_of_set (Library := demo_library) s) s.
Proof. apply demo_list_of_set_lists. Qed.

Lemma demo_new_Book1 : new_Book (L := demo_library) demo_fs "short.txt" = Ok demo_book1.
Proof. vm_compute. reflexivity. Qed.

Lemma demo_new_Books :
  new_Books (L := demo_library) demo_fs (demo_find "one/*.txt") = Ok demo_corpus.
Proof. vm_compute. reflexivity. Qed.

(** ** The claims on an input *)

#[local] Existing Instance demo_library.

(** C1, as worded, fails. The primary text is [well well-known] and the
    one book of the corpus has the word [well]. The word [well-known] is in
    the bag of words of the primary book, has no star and is in no book of
    the corpus; the loop ends with the text [wellREF1REF wellREF1REF-known],
    in which its occurrence is not as it was, and no number stands for a
    book that has it. *)
Lemma well_known_not_as_worded :
  new_Book demo_fs "short.txt" = Ok demo_book1
  ∧ new_Books demo_fs (recursive_find "one/*.txt") = Ok demo_corpus
  ∧ "well-known" ∈ set demo_book1
  ∧ has_star "well-known" = false
  ∧ ∀ ws, ws = ["well-known"; "well"] ∨ ws = ["well"; "well-known"] →
      ∃ st : state,
        citify ws (init_state "well well-known" demo_corpus (0 : @Rng demo_library)) = Ok st
        ∧ book1_text st = "wellREF1REF wellREF1REF-known"
        ∧ ¬ cited_as_worded demo_corpus "well well-known" st "well-known".
Proof.
  split; [exact demo_new_Book1|].
  split; [exact demo_new_Books|].
  split; [apply (bool_decide_unpack _); vm_compute; exact I|].
  split; [reflexivity|].
  assert (∀ st : state,
            book1_text st = "wellREF1REF wellREF1REF-known" →
            ¬ cited_as_worded demo_corpus "well well-known" st "well-known")
    as Hnot.
  { intros st Htext [[_ Hocc]|(n & b & _ & Hb & Hset & _)].
    - rewrite Htext in Hocc. vm_compute in Hocc. discriminate Hocc.
    - apply list_elem_of_singleton in Hb as ->.
      apply (bool_decide_pack _) in Hset. vm_compute in Hset. exact Hset. }
  intros ws [->| ->].
  - eexists. split; [vm_compute; reflexivity|]. split; [reflexivity|].
    by apply Hnot.
  - eexists. split; [vm_compute; reflexivity|]. split; [reflexivity|].
    by apply Hnot.
Qed.

(** C4 fails on a cache file that holds the empty list. The file is there
    and the cache is asked for, yet the corpus is read from the disk: the
    result is the one of a run without a cache file, it depends on the
    file pattern, and the cache file is written anew. *)
Theorem empty_cache_is_rescanned :
  (∀ (L : Library) (fs : disk) (r : Rng) (inspec : string) (total_books : Z),
     read_books fs (Some []) r inspec total_books true
     = read_books fs None r inspec total_books true)
  ∧ read_books demo_fs (Some []) (0 : @Rng demo_library) "one/*.txt" 0 true
    = Ok (demo_corpus, Some demo_corpus, 0 : Rng)
  ∧ read_books demo_fs (Some []) (0 : @Rng demo_library) "none" 0 true
    = Ok ([], Some [], 0 : Rng).
Proof.
  split; [reflexivity|]. split; vm_compute; reflexivity.
Qed.

(** *** The theorems at work *)

Lemma demo_lists_set_rev (s : gset string) : lists_set (reverse (elements s)) s.
Proof.
  split; [rewrite reverse_Permutation; apply NoDup_elements|].
  intros w. rewrite elem_of_reverse. apply elem_of_elements.
Qed.

Ltac run_it Hrun st :=
  match goal with
  | |- context [citify ?ws ?st0] =>
      destruct (citify ws st0) as [st|] eqn:Hrun; [|by vm_compute in Hrun]
  end.

Ltac unfold_run Hrun :=
  let H := fresh in
  pose proof Hrun as H; vm_compute in H; injection H as <-.

Lemma word_cited_once_witness :
  new_Book demo_fs "short.txt" = Ok demo_book1
  ∧ "well" ∈ set demo_book1 ∧ has_star "well" = false
  ∧ ∃ st : state,
      citify (list_of_set (set demo_book1))
        (init_state "well well-known" demo_corpus (0 : @Rng demo_library)) = Ok st
      ∧ replay (history st) "well well-known" = Ok (book1_text st)
      ∧ entries_of "well" (history st) = [("well", demo_book_well, 1)].
Proof.
  assert ("well" ∈ set demo_book1) as Hin
    by (apply (bool_decide_unpack _); vm_compute; exact I).
  split; [exact demo_new_Book1|]. split; [exact Hin|]. split; [reflexivity|].
  run_it Hrun st. exists st. split; [reflexivity|].
  destruct (word_cited_once (L := demo_library) demo_shuffle_permutes demo_fs "short.txt"
              demo_book1 "well well-known" demo_corpus (0 : @Rng demo_library)
              (list_of_set (set demo_book1)) st "well"
              demo_new_Book1 (demo_lists_set _) Hrun Hin eq_refl) as [Hrep _].
  split; [exact Hrep|]. unfold_run Hrun. vm_compute. reflexivity.
Defined.

Lemma citation_list_dense_witness :
  ∃ st2 : state,
    citify (["well"; "whale"] ++ ["is"; "the"])
      (init_state "Well the whale is well-known" demo_corpus2 (0 : @Rng demo_library)) = Ok st2
    ∧ ∃ st1 : state,
        citify ["well"; "whale"]
          (init_state "Well the whale is well-known" demo_corpus2 (0 : @Rng demo_library)) = Ok st1
        ∧ NoDup (cite_filenames st1)
        ∧ cite_filenames st1 = first_occurrences (discovered (history st1)).
Proof.
  run_it Hrun st2. exists st2. split; [reflexivity|].
  destruct (citation_list_dense (L := demo_library) "Well the whale is well-known" demo_corpus2
              (0 : @Rng demo_library) ["well"; "whale"] ["is"; "the"] st2 Hrun)
    as (st1 & Hrun1 & Hnd & Hord & _).
  exists st1. split; [exact Hrun1|]. split; [exact Hnd|exact Hord].
Defined.

Lemma missing_metadata_placeholder_witness :
  demo_metadata !! "whale.txt" = None
  ∧ make_cite demo_metadata 0 "whale.txt"
    = Ok ("<r>1</r> [Unknown author], <i>[whale.txt]</i>", ["whale.txt"; "whale.txt"]).
Proof.
  split; [vm_compute; reflexivity|].
  exact (proj1 (missing_metadata_placeholder demo_metadata 0 "whale.txt" []
                  ltac:(vm_compute; reflexivity))).
Defined.

Lemma undecodable_book_is_empty_witness :
  demo_fs !! "PG/etext03/bad.txt" = Some ("caf" +:+ byte_0x81)
  ∧ decode_cp1252 ("caf" +:+ byte_0x81) = Raise UnicodeDecodeError
  ∧ ∃ book, new_Book demo_fs "PG/etext03/bad.txt" = Ok book
      ∧ filename book = "bad.txt" ∧ set book = ∅.
Proof.
  split; [vm_compute; reflexivity|]. split; [vm_compute; reflexivity|].
  destruct (undecodable_book_is_empty (L := demo_library) demo_words_of_empty demo_fs
              "PG/etext03/bad.txt" ("caf" +:+ byte_0x81)
              ltac:(vm_compute; reflexivity) ltac:(vm_compute; reflexivity))
    as (book & Hnew & _ & Hname & Hset & _).
  exists book. split; [exact Hnew|]. split; [exact Hname|exact Hset].
Defined.

Lemma same_sources_in_two_runs_witness :
  ∃ st1 st2 : state,
    citify (elements (set demo_book1))
      (init_state "well well-known" demo_corpus2 (0 : @Rng demo_library)) = Ok st1
    ∧ citify (reverse (elements (set demo_book1)))
        (init_state "well well-known" demo_corpus2 (0 : @Rng demo_library)) = Ok st2
    ∧ ("well", demo_book_whale, 1) ∈ history st1
    ∧ ("well", demo_book_all, 1) ∈ history st2
    ∧ demo_book_whale ∈ sources demo_corpus2 "well"
    ∧ ∃ b' n', (("well", b', n') : string * Book * nat) ∈ history st2
               ∧ b' ∈ sources demo_corpus2 "well".
Proof.
  destruct (citify (elements (set demo_book1))
              (init_state "well well-known" demo_corpus2 (0 : @Rng demo_library)))
    as [st1|] eqn:Hrun1; [|by vm_compute in Hrun1].
  destruct (citify (reverse (elements (set demo_book1)))
              (init_state "well well-known" demo_corpus2 (0 : @Rng demo_library)))
    as [st2|] eqn:Hrun2; [|by vm_compute in Hrun2].
  exists st1, st2. split; [reflexivity|]. split; [reflexivity|].
  assert (("well", demo_book_whale, 1) ∈ history st1) as Hin1
    by (unfold_run Hrun1; vm_compute; left).
  split; [exact Hin1|].
  split; [unfold_run Hrun2; vm_compute; left|].
  exact (same_sources_in_two_runs (L := demo_library) demo_shuffle_permutes demo_fs "short.txt"
           demo_book1 "well well-known" demo_corpus2
           (elements (set demo_book1)) (reverse (elements (set demo_book1)))
           (0 : @Rng demo_library) (0 : @Rng demo_library) st1 st2 "well" demo_book_whale 1
           demo_new_Book1 (demo_lists_set _) (demo_lists_set_rev _)
           Hrun1 Hrun2 Hin1).
Defined.

Lemma done_is_words_without_star_witness :
  new_Book demo_fs "short.txt" = Ok demo_book1
  ∧ ∃ st : state,
      citify (list_of_set (set demo_book1))
        (init_state "well well-known" demo_corpus (0 : @Rng demo_library)) = Ok st
      ∧ done st = filter (fun w => has_star w = false) (set demo_book1).
Proof.
  split; [exact demo_new_Book1|].
  run_it Hrun st. exists st. split; [reflexivity|].
  exact (proj2 (proj2 (done_is_words_without_star (L := demo_library) demo_fs "short.txt" demo_book1
           "well well-known" demo_corpus (0 : @Rng demo_library) (list_of_set (set demo_book1)) st
           demo_new_Book1 (demo_lists_set _) Hrun))).
Defined.



(** ** The other theorems at work *)

Lemma demo_new_Book_well : new_Book demo_fs "one/well.txt" = Ok demo_book_well.
Proof. vm_compute. reflexivity. Qed.

Lemma demo_filled : filled demo_metadata.
Proof. apply (bool_decide_unpack _). vm_compute. exact I. Qed.

Lemma demo_has_title_and_author : has_title_and_author demo_metadata "short.txt".
Proof.
  exists (demo_row "Herman" "Melville" "Moby Dick" EmptyString).
  split_and!; apply (bool_decide_unpack _); vm_compute; exact I.
Qed.

Lemma new_Books_of_files_witness :
  ∃ books, new_Books demo_fs ["PG/etext00/well.txt"; "PG/etext01/whale.txt"] = Ok books
    ∧ fullpath <$> books = ["PG/etext00/well.txt"; "PG/etext01/whale.txt"]
    ∧ filename <$> books = basename <$> ["PG/etext00/well.txt"; "PG/etext01/whale.txt"].
Proof.
  apply (new_Books_of_files (L := demo_library) demo_fs).
  intros file Hin.
  apply elem_of_cons in Hin as [->|Hin]; [eexists; vm_compute; reflexivity|].
  apply elem_of_cons in Hin as [->|Hin]; [eexists; vm_compute; reflexivity|].
  by apply elem_of_nil in Hin.
Defined.

Lemma new_Books_missing_file_witness :
  "gone.txt" ∈ ["one/well.txt"; "gone.txt"] ∧ demo_fs !! "gone.txt" = None
  ∧ ∃ missing, new_Books demo_fs ["one/well.txt"; "gone.txt"]
               = Raise (FileNotFoundError missing)
      ∧ missing ∈ ["one/well.txt"; "gone.txt"] ∧ demo_fs !! missing = None.
Proof.
  assert ("gone.txt" ∈ ["one/well.txt"; "gone.txt"]) as Hin by (right; left).
  assert (demo_fs !! "gone.txt" = None) as Hnone by (vm_compute; reflexivity).
  split; [exact Hin|]. split; [exact Hnone|].
  exact (new_Books_missing_file (L := demo_library) demo_fs _ "gone.txt" Hin Hnone).
Defined.

Lemma cache_round_trip_witness :
  read_books demo_fs None (0 : @Rng demo_library) "one/*.txt" 0 true
  = Ok (demo_corpus, Some demo_corpus, 0 : @Rng demo_library)
  ∧ demo_corpus ≠ []
  ∧ read_books demo_fs (Some demo_corpus) (7 : @Rng demo_library) "PG/*.txt" 1 true
    = Ok (demo_corpus, Some demo_corpus, 7 : @Rng demo_library).
Proof.
  assert (read_books demo_fs None (0 : @Rng demo_library) "one/*.txt" 0 true
          = Ok (demo_corpus, Some demo_corpus, 0 : @Rng demo_library)) as Hread
    by (vm_compute; reflexivity).
  assert (demo_corpus ≠ []) as Hne by done.
  split; [exact Hread|]. split; [exact Hne|].
  exact (proj2 (cache_round_trip (L := demo_library) demo_fs 0 0 "one/*.txt" 0
                  demo_corpus demo_corpus Hread Hne) demo_fs 7 "PG/*.txt" 1%Z).
Defined.

Lemma no_cache_no_cache_file_witness :
  read_books demo_fs (Some []) (0 : @Rng demo_library) "one/*.txt" 0 false
  = Ok (demo_corpus, Some [], 0 : @Rng demo_library)
  ∧ read_books demo_fs None (0 : @Rng demo_library) "one/*.txt" 0 false
    = Ok (demo_corpus, None, 0 : @Rng demo_library).
Proof.
  assert (read_books demo_fs (Some []) (0 : @Rng demo_library) "one/*.txt" 0 false
          = Ok (demo_corpus, Some [], 0 : @Rng demo_library)) as Hread
    by (vm_compute; reflexivity).
  split; [exact Hread|].
  exact (proj2 (no_cache_no_cache_file (L := demo_library) demo_fs (Some []) None
                  0 0 "one/*.txt" 0 demo_corpus (Some []) Hread)).
Defined.

Lemma Book_filename_is_last_part_witness :
  new_Book demo_fs "one/well.txt" = Ok demo_book_well
  ∧ has_slash (filename demo_book_well) = false
  ∧ ∃ pre, "one/well.txt" = pre +:+ filename demo_book_well
      ∧ (pre = EmptyString ∨ ∃ pre', pre = pre' +:+ "/").
Proof.
  split; [exact demo_new_Book_well|].
  exact (Book_filename_is_last_part (L := demo_library) demo_fs "one/well.txt"
           demo_book_well demo_new_Book_well).
Defined.

Lemma same_number_iff_same_file_name_witness :
  ∃ st : state,
    citify ["well"; "whale"; "is"]
      (init_state "Well the whale is well-known" demo_corpus2 (0 : @Rng demo_library))
    = Ok st
    ∧ ("whale", demo_book_whale, 2) ∈ history st
    ∧ ("is", demo_book_all, 1) ∈ history st
    ∧ (2 = 1 ↔ filename demo_book_whale = filename demo_book_all).
Proof.
  run_it Hrun st. exists st. split; [reflexivity|].
  assert (("whale", demo_book_whale, 2) ∈ history st) as Hin1
    by (unfold_run Hrun; vm_compute; right; left).
  assert (("is", demo_book_all, 1) ∈ history st) as Hin2
    by (unfold_run Hrun; vm_compute; right; right; left).
  split; [exact Hin1|]. split; [exact Hin2|].
  exact (same_number_iff_same_file_name (L := demo_library)
           "Well the whale is well-known" demo_corpus2 0 ["well"; "whale"; "is"] st
           "whale" "is" demo_book_whale demo_book_all 2 1 Hrun Hin1 Hin2).
Defined.

Lemma citify_total_witness :
  ∃ st' : state,
    citify ["well"; "start**the"]
      (init_state "well START**THE" demo_corpus (0 : @Rng demo_library)) = Ok st'.
Proof.
  apply (citify_total (L := demo_library)).
  constructor; [by left|]. constructor; [by right|]. constructor.
Defined.

Lemma citify_raises_what_re_raises_witness :
  citify ["u.s"] (init_state "the U.S mail" [demo_book_us] (0 : @Rng demo_library))
  = Raise (ReError "\b(u.s)\b")
  ∧ ∃ w n text, w ∈ ["u.s"] ∧ plain w = false ∧ has_star w = false
      ∧ re_sub_py ("\b(" +:+ w +:+ ")\b") ("\1REF" +:+ str_of_nat n +:+ "REF") text
        = Raise (ReError "\b(u.s)\b").
Proof.
  assert (citify ["u.s"]
            (init_state "the U.S mail" [demo_book_us] (0 : @Rng demo_library))
          = Raise (ReError "\b(u.s)\b")) as Hrun by (vm_compute; reflexivity).
  split; [exact Hrun|].
  exact (citify_raises_what_re_raises (L := demo_library) ["u.s"] _ _ Hrun).
Defined.

Lemma main_empty_corpus_witness :
  read_books demo_fs None (0 : @Rng demo_library) "none" 0 false
  = Ok ([], None, 0 : @Rng demo_library)
  ∧ ∃ e, main demo_fs None demo_metadata (0 : @Rng demo_library)
           "short.txt" "none" 0 false = Raise e.
Proof.
  assert (read_books demo_fs None (0 : @Rng demo_library) "none" 0 false
          = Ok ([], None, 0 : @Rng demo_library)) as Hread by (vm_compute; reflexivity).
  split; [exact Hread|].
  exact (main_empty_corpus (L := demo_library) demo_shuffle_permutes demo_fs None None
           demo_metadata 0 0 "short.txt" "none" 0 false Hread).
Defined.

Lemma main_undecodable_primary_witness :
  demo_fs !! "PG/etext03/bad.txt" = Some ("caf" +:+ byte_0x81)
  ∧ decode_cp1252 ("caf" +:+ byte_0x81) = Raise UnicodeDecodeError
  ∧ main demo_fs None demo_metadata (0 : @Rng demo_library)
      "PG/etext03/bad.txt" "one/*.txt" 0 false = Raise UnicodeDecodeError.
Proof.
  assert (demo_fs !! "PG/etext03/bad.txt" = Some ("caf" +:+ byte_0x81)) as Hfile
    by (vm_compute; reflexivity).
  assert (decode_cp1252 ("caf" +:+ byte_0x81) = Raise UnicodeDecodeError) as Hdec
    by (vm_compute; reflexivity).
  split; [exact Hfile|]. split; [exact Hdec|].
  refine (main_undecodable_primary (L := demo_library) demo_fs None demo_metadata 0
            "PG/etext03/bad.txt" "one/*.txt" _ 0 false
            (demo_corpus, None, 0 : @Rng demo_library) Hfile Hdec _).
  vm_compute. reflexivity.
Defined.

Lemma demo_load_metadata :
  load_metadata demo_reader
  = Ok {[ "emma10.txt" := {[ "Title" := Some "Emma, second edition" ]} ]}.
Proof. vm_compute. reflexivity. Qed.

Lemma load_metadata_last_row_wins_witness :
  ({[ "emma10.txt" := {[ "Title" := Some "Emma, second edition" ]} ]} : metadata_t)
    !! "emma10.txt"
  = delete "Text" <$> last (rows_of "emma10.txt" demo_reader).
Proof.
  exact (load_metadata_last_row_wins demo_reader _ "emma10.txt" demo_load_metadata
           ltac:(done)).
Defined.

Lemma load_metadata_keys_witness :
  ({[ "emma10.txt" := {[ "Title" := Some "Emma, second edition" ]} ]} : metadata_t)
    !! EmptyString = None.
Proof.
  exact (proj1 (load_metadata_keys demo_reader _ demo_load_metadata)).
Defined.

Lemma no_Subtitle_no_title_witness :
  make_cite demo_metadata_short 0 "well.txt"
  = Ok ("<r>" +:+ str_of_nat (0 + 1) +:+ "</r> " +:+ "Austen, Jane" +:+ ", <i>"
          +:+ ("[" +:+ "well.txt" +:+ "]") +:+ "</i>", ([] ++ ["well.txt"])%list).
Proof.
  refine (no_Subtitle_no_title demo_metadata_short 0 "well.txt" "Austen, Jane"
            {[ "Author-FN" := Some "Jane"; "Author-LN" := Some "Austen";
               "Title" := Some "Emma" ]} [] _ _ _ _).
  - vm_compute. reflexivity.
  - eexists. vm_compute. reflexivity.
  - vm_compute. reflexivity.
  - vm_compute. reflexivity.
Defined.

Lemma make_cites_filled_witness :
  filled demo_metadata
  ∧ ∃ entries printed,
      make_cites ["well.txt"; "whale.txt"] demo_metadata = Ok (entries, printed)
      ∧ length entries = length ["well.txt"; "whale.txt"].
Proof.
  split; [exact demo_filled|].
  exact (make_cites_filled ["well.txt"; "whale.txt"] demo_metadata demo_filled).
Defined.

Lemma get_coauthors_spec_witness :
  ∃ coauthors, get_coauthors ["well.txt"; "whale.txt"; "well.txt"] demo_metadata
               = Ok coauthors
    ∧ NoDup coauthors ∧ length coauthors ≤ 3.
Proof.
  destruct (get_coauthors ["well.txt"; "whale.txt"; "well.txt"] demo_metadata)
    as [coauthors|] eqn:Hc; [|vm_compute in Hc; discriminate Hc].
  exists coauthors. split; [reflexivity|].
  destruct (get_coauthors_spec _ _ _ Hc) as (Hnd & Hlen & _).
  split; [exact Hnd|exact Hlen].
Defined.

Lemma render_writes_the_page_witness :
  ["well.txt"] ≠ [] ∧ filled demo_metadata
  ∧ has_title_and_author demo_metadata "short.txt"
  ∧ ∃ head cites,
      render demo_metadata "short.txt" "wellREF1REF wellREF1REF-known" ["well.txt"]
      = Ok (head +:+ sub_ref "wellREF1REF wellREF1REF-known" +:+ footer (join nl cites))
      ∧ length cites = length ["well.txt"]
      ∧ has_raw_marker (sub_ref "wellREF1REF wellREF1REF-known") = false.
Proof.
  assert (["well.txt"] ≠ ([] : list string)) as Hne by done.
  split; [exact Hne|]. split; [exact demo_filled|].
  split; [exact demo_has_title_and_author|].
  exact (render_writes_the_page demo_metadata "short.txt"
           "wellREF1REF wellREF1REF-known" ["well.txt"] Hne demo_filled
           demo_has_title_and_author).
Defined.

Lemma sub_word_without_occurrence_witness :
  plain "ca" = true ∧ occurrences "ca" "I can't" = []
  ∧ sub_word "ca" 4 "I can't" = Ok "I can't".
Proof.
  split; [reflexivity|]. split; [reflexivity|].
  exact (sub_word_without_occurrence (L := demo_library) "ca" "I can't" 4
           eq_refl eq_refl).
Defined.

Lemma sub_ref_renders_marker_witness :
  has_REF "The Rachel, a whale" = false
  ∧ sub_ref ("The Rachel, a whale" +:+ "REF" +:+ "12" +:+ "REF" +:+ " REF7REF")
    = "The Rachel, a whale" +:+ "<r>" +:+ "12" +:+ "</r>" +:+ sub_ref " REF7REF".
Proof.
  split; [reflexivity|].
  exact (sub_ref_renders_marker "The Rachel, a whale" "12" " REF7REF"
           eq_refl ltac:(done) eq_refl).
Defined.

Lemma main_writes_a_page_witness :
  ∃ page, main demo_fs None demo_metadata (0 : @Rng demo_library)
            "short.txt" "one/*.txt" 0 true = Ok (page, Some demo_corpus).
Proof.
  refine (main_writes_a_page (L := demo_library) demo_shuffle_permutes
            demo_list_of_set_lists demo_fs None (Some demo_corpus) demo_metadata
            0 0 "short.txt" "one/*.txt" "well well-known" 0 true
            demo_book1 demo_corpus "well" demo_book_well
            demo_new_Book1 _ _ _ _ eq_refl _ _ demo_filled demo_has_title_and_author).
  - vm_compute. reflexivity.
  - vm_compute. reflexivity.
  - intros w Hw. apply elem_of_list_to_set in Hw.
    apply elem_of_cons in Hw as [->|Hw]; [by left|].
    apply elem_of_cons in Hw as [->|Hw]; [by left|].
    by apply elem_of_nil in Hw.
  - apply (bool_decide_unpack _). vm_compute. exact I.
  - by left.
  - apply (bool_decide_unpack _). vm_compute. exact I.
Defined.
